(** * RSR compliance checker: report aggregation, predicates and exports

    A shallow embedding of [tools/rsr_checker.py] (the Rhodium Standard
    Repository compliance checker) and the properties of its report model,
    predicate library and export adapters. *)

From Stdlib Require Import String Ascii List Bool Arith ZArith QArith Qround Qpower.
From Stdlib Require Import Lia Lqa Permutation.
From Stdlib Require Import Floats.SpecFloat.
From Stdlib Require Import DecimalString.
From ExtLib Require Import Structures.Monad Structures.MonadExc Data.Monads.EitherMonad.
Import ListNotations.
Import MonadNotation.

Local Open Scope string_scope.
Local Open Scope monad_scope.

Set Warnings "-register-all".

(** ** Python floats

    A Python [float] is an IEEE 754 binary64 number.  The checker only ever
    computes finite, non-negative floats (percentages), so a float is modelled
    by the rational number it denotes, and every arithmetic operation is the
    exact operation followed by rounding to the nearest binary64 number, ties
    to even, which is how IEEE 754 defines it.  Subnormal numbers are rounded
    on their fixed grid; overflow is not modelled, and does not occur: a
    percentage is at most 100 ([percentage_of_range]). *)

Module Float64.

Local Open Scope Q_scope.

Definition float := Q.

Definition prec : Z := 53.
Definition emin : Z := -1074.

(** Exponent of the last place of a number of magnitude [2^(k-1) <= x < 2^k]. *)
Definition fexp (k : Z) : Z := Z.max (k - prec) emin.

(** [ilog2 x] is the integer [z] with [2^z <= x < 2^(z+1)], for [0 < x]. *)
Definition ilog2 (x : Q) : Z :=
  let k0 := (Z.log2 (Qnum x) - Z.log2 (Zpos (Qden x)))%Z in
  if Qle_bool (2 ^ k0)%Q x then k0 else (k0 - 1)%Z.

(** Nearest integer, ties to the even one. *)
Definition rne (y : Q) : Z :=
  let f := Qfloor y in
  match ((y - inject_Z f) ?= (1 # 2))%Q with
  | Lt => f
  | Gt => (f + 1)%Z
  | Eq => if Z.even f then f else (f + 1)%Z
  end.

Definition round_pos (x : Q) : Q :=
  let e := fexp (ilog2 x + 1) in
  inject_Z (rne (x * 2 ^ (- e))) * 2 ^ e.

(** Round to nearest binary64, ties to even. *)
Definition RN (x : Q) : float :=
  match x ?= 0 with
  | Eq => 0
  | Gt => round_pos x
  | Lt => - round_pos (- x)
  end.

(** [a / b] on Python ints: the correctly rounded quotient. *)
Definition int_truediv (a b : Z) : float := RN (inject_Z a / inject_Z b).

(** Conversion of an int operand of a mixed float/int operation. *)
Definition of_int (n : Z) : float := RN (inject_Z n).

Definition mul (x y : float) : float := RN (x * y).

(** [x < n] for a float [x] and an int [n]: Python compares the exact values. *)
Definition lt_int (x : float) (n : Z) : bool := negb (Qle_bool (inject_Z n) x).

End Float64.


(** The same computation on the Standard Library's executable specification
    of IEEE 754 arithmetic, instantiated at binary64; it is used to validate
    [Float64] on concrete inputs. *)

Module Binary64.

Definition prec : Z := 53.
Definition emax : Z := 1024.

Definition of_int (n : Z) : spec_float := binary_normalize prec emax n 0 false.

Definition to_Q (f : spec_float) : option Q :=
  match f with
  | S754_zero _ => Some 0%Q
  | S754_finite s m e =>
      Some ((if s then - inject_Z (Zpos m) else inject_Z (Zpos m)) * 2 ^ e)%Q
  | _ => None
  end.

(** An int as an exact operand of a correctly rounded operation. *)
Definition exact_int (n : Z) : spec_float :=
  match n with
  | Z0 => S754_zero false
  | Zpos p => S754_finite false p 0
  | Zneg p => S754_finite true p 0
  end.

(** [a / b * 100] on ints [a], [b]. *)
Definition ratio_times_100 (a b : Z) : spec_float :=
  SFmul prec emax (SFdiv prec emax (exact_int a) (exact_int b)) (of_int 100).

End Binary64.

(** ** Python strings, lists and exceptions *)

(** [str.lower] and [str.capitalize], on ASCII text: the letters A to Z
    change case and every other character is kept, also a letter outside
    ASCII, whose case Python would change. *)
Definition lower_ascii (c : ascii) : ascii :=
  let n := nat_of_ascii c in
  if (65 <=? n)%nat && (n <=? 90)%nat then ascii_of_nat (n + 32) else c.

Definition upper_ascii (c : ascii) : ascii :=
  let n := nat_of_ascii c in
  if (97 <=? n)%nat && (n <=? 122)%nat then ascii_of_nat (n - 32) else c.

Fixpoint lower (s : string) : string :=
  match s with
  | EmptyString => EmptyString
  | String c s' => String (lower_ascii c) (lower s')
  end.

Definition capitalize (s : string) : string :=
  match s with
  | EmptyString => EmptyString
  | String c s' => String (upper_ascii c) (lower s')
  end.

(** [sep.join(l)]. *)
Fixpoint join (sep : string) (l : list string) : string :=
  match l with
  | [] => ""
  | [x] => x
  | x :: rest => x ++ sep ++ join sep rest
  end.

(** [s.replace(old, new)] for a one-character [old]. *)
Fixpoint replace (old : ascii) (new : string) (s : string) : string :=
  match s with
  | EmptyString => EmptyString
  | String c s' =>
      if Ascii.eqb c old then new ++ replace old new s'
      else String c (replace old new s')
  end.

(** [sub in s]. *)
Fixpoint contains (sub s : string) : bool :=
  prefix sub s ||
  match s with
  | EmptyString => false
  | String _ s' => contains sub s'
  end.

(** Exceptions the checker can meet; all of them derive from [Exception].
    The payload is [str(e)]. *)
Inductive exn : Type :=
| AttributeError (msg : string)
| OSError (msg : string)
| UnicodeDecodeError (msg : string)
| UnicodeEncodeError (msg : string)
| ReError (msg : string).

Definition str_exn (e : exn) : string :=
  match e with
  | AttributeError m | OSError m | UnicodeDecodeError m | UnicodeEncodeError m
  | ReError m => m
  end.

(** A computation that returns a value or raises. *)
Abbreviation result := (sum exn).

(** ** The report model *)

Record ComplianceCheck : Type := {
  name : string;
  description : string;
  level : string;
  category : string;
  required : bool;
  status : bool;
  details : string;
  weight : Float64.float
}.

Record ComplianceReport : Type := {
  bronze_checks : list ComplianceCheck;
  silver_checks : list ComplianceCheck;
  gold_checks : list ComplianceCheck;
  platinum_checks : list ComplianceCheck
}.

(** [getattr(self, attr)] for the attribute names built by [get_level_score]. *)
Definition getattr (self : ComplianceReport) (attr : string)
  : result (list ComplianceCheck) :=
  if attr =? "bronze_checks" then ret (bronze_checks self)
  else if attr =? "silver_checks" then ret (silver_checks self)
  else if attr =? "gold_checks" then ret (gold_checks self)
  else if attr =? "platinum_checks" then ret (platinum_checks self)
  else raise (AttributeError
                ("'ComplianceReport' object has no attribute '" ++ attr ++ "'")).

Definition percentage_of (passed total : nat) : Float64.float :=
  if (0 <? total)%nat
  then Float64.mul (Float64.int_truediv (Z.of_nat passed) (Z.of_nat total))
                   (Float64.of_int 100)
  else 0%Q.

Definition get_level_score (self : ComplianceReport) (level : string)
  : result (nat * nat * Float64.float) :=
  checks <- getattr self (lower level ++ "_checks") ;;
  let passed := list_sum (map (fun _ => 1%nat) (filter status checks)) in
  let total := length checks in
  let percentage := percentage_of passed total in
  ret (passed, total, percentage).

Definition get_overall_level (self : ComplianceReport) : result string :=
  '(_, _, bronze_pct) <- get_level_score self "Bronze" ;;
  '(_, _, silver_pct) <- get_level_score self "Silver" ;;
  '(_, _, gold_pct) <- get_level_score self "Gold" ;;
  '(_, _, platinum_pct) <- get_level_score self "Platinum" ;;
  if Float64.lt_int bronze_pct 100 then ret "Non-compliant"
  else if Float64.lt_int silver_pct 100 then ret "Bronze"
  else if Float64.lt_int gold_pct 66 then ret "Silver"
  else if Float64.lt_int platinum_pct 66 then ret "Gold"
  else ret "Platinum".

Section ReportDefinitions.

(** The passed count of a check list, as [get_level_score] computes it. *)
Definition passed_of (checks : list ComplianceCheck) : nat :=
  list_sum (map (fun _ => 1%nat) (filter status checks)).

(** The score triple of a check list. *)
Definition score_of (checks : list ComplianceCheck) : nat * nat * Float64.float :=
  (passed_of checks, length checks, percentage_of (passed_of checks) (length checks)).

(** The gate table of the specification, on four percentages. *)
Definition gate_table (BronzePct SilverPct GoldPct PlatinumPct : Q) : string :=
  if Qlt_le_dec BronzePct 100%Q then "Non-compliant"
  else if Qlt_le_dec SilverPct 100%Q then "Bronze"
  else if Qlt_le_dec GoldPct 66%Q then "Silver"
  else if Qlt_le_dec PlatinumPct 66%Q then "Gold"
  else "Platinum".

(** The order on levels. *)
Definition level_rank (l : string) : nat :=
  if l =? "Non-compliant" then 0
  else if l =? "Bronze" then 1
  else if l =? "Silver" then 2
  else if l =? "Gold" then 3
  else if l =? "Platinum" then 4
  else 0.

(** The percentage of a check list. *)
Definition pct (checks : list ComplianceCheck) : Float64.float :=
  percentage_of (passed_of checks) (length checks).

(** Agreement of the rational model with the IEEE 754 specification on
    [passed / total * 100]. *)
Definition agrees_with_binary64 (passed total : Z) : bool :=
  match Binary64.to_Q (Binary64.ratio_times_100 passed total) with
  | Some q =>
      Qeq_bool q (Float64.mul (Float64.int_truediv passed total) (Float64.of_int 100))
  | None => false
  end.

(** The ints [0], ..., [n - 1]. *)
Definition range (n : nat) : list Z := map Z.of_nat (seq 0 n).

(** What the specification says of one level's score.  The percentage is
    stated twice: as the float that Python computes, and by its distance to
    the exact rational [100 * passed / total], which is at most [2^-46]. *)
Definition level_score_spec (r : ComplianceReport) (level : string)
           (checks : list ComplianceCheck) : Prop :=
  exists (passed total : nat) (percentage : Float64.float),
    get_level_score r level = inr (passed, total, percentage) /\
    passed = count_occ bool_dec (map status checks) true /\
    total = length checks /\
    ((0 < total)%nat ->
     percentage = Float64.mul (Float64.int_truediv (Z.of_nat passed) (Z.of_nat total))
                              (Float64.of_int 100)) /\
    ((0 < total)%nat ->
     (- (1 # 70368744177664)
      <= percentage - 100 * inject_Z (Z.of_nat passed) / inject_Z (Z.of_nat total)
      <= 1 # 70368744177664)%Q) /\
    ((0 < total)%nat -> passed = total -> (percentage == 100)%Q) /\
    (total = 0%nat -> percentage = 0%Q) /\
    (0 <= percentage <= 100)%Q.

(** [c.status = b] on a check. *)
Definition set_status (c : ComplianceCheck) (b : bool) : ComplianceCheck :=
  {| name := name c; description := description c; level := level c;
     category := category c; required := required c; status := b;
     details := details c; weight := weight c |}.

(** One check of the list goes from failed to passed. *)
Inductive flips_check : list ComplianceCheck -> list ComplianceCheck -> Prop :=
| flips_here (c : ComplianceCheck) (rest : list ComplianceCheck) :
    status c = false -> flips_check (c :: rest) (set_status c true :: rest)
| flips_later (c : ComplianceCheck) (l l' : list ComplianceCheck) :
    flips_check l l' -> flips_check (c :: l) (c :: l').

(** One check of the report goes from failed to passed. *)
Inductive flips_one (r r' : ComplianceReport) : Prop :=
| flips_bronze :
    flips_check (bronze_checks r) (bronze_checks r') ->
    silver_checks r' = silver_checks r -> gold_checks r' = gold_checks r ->
    platinum_checks r' = platinum_checks r -> flips_one r r'
| flips_silver :
    bronze_checks r' = bronze_checks r ->
    flips_check (silver_checks r) (silver_checks r') ->
    gold_checks r' = gold_checks r ->
    platinum_checks r' = platinum_checks r -> flips_one r r'
| flips_gold :
    bronze_checks r' = bronze_checks r -> silver_checks r' = silver_checks r ->
    flips_check (gold_checks r) (gold_checks r') ->
    platinum_checks r' = platinum_checks r -> flips_one r r'
| flips_platinum :
    bronze_checks r' = bronze_checks r -> silver_checks r' = silver_checks r ->
    gold_checks r' = gold_checks r ->
    flips_check (platinum_checks r) (platinum_checks r') -> flips_one r r'.

(** Sample data. *)
Definition sample_check (n : string) (lvl : string) (st : bool) : ComplianceCheck :=
  {| name := n; description := ""; level := lvl; category := "Build";
     required := true; status := st; details := if st then "Found" else "Missing";
     weight := 1%Q |}.

Definition sample_report : ComplianceReport :=
  {| bronze_checks := [sample_check "README.md" "Bronze" true;
                       sample_check "LICENSE" "Bronze" true];
     silver_checks := [sample_check "RSR_COMPLIANCE.md" "Silver" true;
                       sample_check "Nix flakes" "Silver" false];
     gold_checks := [sample_check "Formal verification" "Gold" false];
     platinum_checks := [] |}.

(** The sample report with its checks reordered and other [required] and
    [weight] fields. *)
Definition shuffled_report : ComplianceReport :=
  {| bronze_checks :=
       [{| name := "LICENSE"; description := ""; level := "Bronze"; category := "Legal";
           required := false; status := true; details := "Found"; weight := 5 # 2 |};
        sample_check "README.md" "Bronze" true];
     silver_checks := [sample_check "Nix flakes" "Silver" false;
                       {| name := "RSR_COMPLIANCE.md"; description := "";
                          level := "Silver"; category := "Documentation";
                          required := false; status := true; details := "";
                          weight := 0 |}];
     gold_checks := [sample_check "Formal verification" "Gold" false];
     platinum_checks := [] |}.

(** The sample report once its failed Silver check passes. *)
Definition flipped_report : ComplianceReport :=
  {| bronze_checks := bronze_checks sample_report;
     silver_checks := [sample_check "RSR_COMPLIANCE.md" "Silver" true;
                       set_status (sample_check "Nix flakes" "Silver" false) true];
     gold_checks := gold_checks sample_report;
     platinum_checks := platinum_checks sample_report |}.

End ReportDefinitions.

(** ** The file system and [pathlib]

    A file is modelled by what the two read calls of the checker observe:
    [read_text(encoding='utf-8')] and
    [read_text(encoding='utf-8', errors='ignore')].  Symbolic links are not
    modelled. *)

Inductive node : Type :=
| File (read_strict read_ignore : result string)
| Dir (entries : list (string * node)).

Fixpoint assoc {A : Type} (k : string) (l : list (string * A)) : option A :=
  match l with
  | [] => None
  | (k', v) :: rest => if k' =? k then Some v else assoc k rest
  end.

(** [s.split(sep)] for a one-character separator. *)
Fixpoint split (sep : ascii) (s : string) : list string :=
  match s with
  | EmptyString => [""]
  | String c s' =>
      if Ascii.eqb c sep then "" :: split sep s'
      else match split sep s' with
           | [] => [String c ""]
           | w :: ws => String c w :: ws
           end
  end.

(** The components of a path: [pathlib] drops empty and ["."] components,
    and with them a trailing slash. *)
Definition path_parts (p : string) : list string :=
  filter (fun c => negb (c =? "") && negb (c =? ".")) (split "/" p).

(** [base / p]: an absolute [p] replaces [base]. *)
Definition joinpath (base : list string) (p : string) : list string :=
  if prefix "/" p then path_parts p else base ++ path_parts p.

(** [str(path)] of an absolute path.  The root is one slash; the root of
    exactly two slashes that [pathlib] keeps apart is not modelled. *)
Definition path_str (parts : list string) : string := "/" ++ join "/" parts.

(** Path resolution from [cur], whose ancestors are [anc] (nearest first). *)
Fixpoint walk (anc : list node) (cur : node) (parts : list string) : option node :=
  match parts with
  | [] => Some cur
  | c :: rest =>
      match cur with
      | File _ _ => None
      | Dir entries =>
          if c =? ".." then
            match anc with
            | [] => walk [] cur rest
            | parent :: anc' => walk anc' parent rest
            end
          else
            match assoc c entries with
            | Some child => walk (cur :: anc) child rest
            | None => None
            end
      end
  end.

(** *** Existence tests that raise

    [Path.exists()] calls [os.stat] and returns [False] on [ENOENT] and
    [ENOTDIR]; any other [OSError] leaves it.  Of those the model has
    [ENAMETOOLONG]: a component longer than [NAME_MAX] bytes looked up in a
    directory, or a path of [PATH_MAX] bytes or more.  Permissions are not
    modelled. *)

Inductive errno : Type := ENOENT | ENOTDIR | EISDIR | ENAMETOOLONG.

Definition strerror (e : errno) : string :=
  match e with
  | ENOENT => "[Errno 2] No such file or directory"
  | ENOTDIR => "[Errno 20] Not a directory"
  | EISDIR => "[Errno 21] Is a directory"
  | ENAMETOOLONG => "[Errno 36] File name too long"
  end.

(** [str(e)] of the [OSError] for [e] on a path. *)
Definition os_error (e : errno) (parts : list string) : exn :=
  OSError (strerror e ++ ": '" ++ path_str parts ++ "'").

Definition NAME_MAX : nat := 255.
Definition PATH_MAX : nat := 4096.

(** Path resolution as the kernel does it, from [cur] with ancestors [anc]. *)
Fixpoint stat_from (anc : list node) (cur : node) (parts : list string) : errno + node :=
  match parts with
  | [] => inr cur
  | c :: rest =>
      match cur with
      | File _ _ => inl ENOTDIR
      | Dir entries =>
          if c =? ".." then
            match anc with
            | [] => stat_from [] cur rest
            | parent :: anc' => stat_from anc' parent rest
            end
          else if (NAME_MAX <? String.length c)%nat then inl ENAMETOOLONG
          else
            match assoc c entries with
            | Some child => stat_from (cur :: anc) child rest
            | None => inl ENOENT
            end
      end
  end.

(** [os.stat] of an absolute path. *)
Definition stat (fs : node) (parts : list string) : errno + node :=
  if (PATH_MAX <=? String.length (path_str parts))%nat then inl ENAMETOOLONG
  else stat_from [] fs parts.

(** [Path.exists()]. *)
Definition path_exists (fs : node) (parts : list string) : result bool :=
  match stat fs parts with
  | inr _ => ret true
  | inl ENOENT => ret false
  | inl ENOTDIR => ret false
  | inl e => raise (os_error e parts)
  end.


(** [Path.rglob("*")]: every entry below a directory; nothing below a file. *)
Fixpoint rglob_all (n : node) : list node :=
  match n with
  | File _ _ => []
  | Dir entries =>
      flat_map (fun entry => let '(_, child) := entry in child :: rglob_all child)
               entries
  end.

Definition is_file (n : node) : bool :=
  match n with
  | File _ _ => true
  | Dir _ => false
  end.

(** [test_file.read_text(encoding='utf-8', errors='ignore')]. *)
Definition read_text_ignore (n : node) : result string :=
  match n with
  | File _ lenient => lenient
  | Dir _ => raise (OSError "[Errno 21] Is a directory")
  end.

(** JSON documents, as handed to [json.dump]. *)
Inductive json : Type :=
| JString (s : string)
| JInt (n : Z)
| JFloat (x : Float64.float)
| JBool (b : bool)
| JArray (items : list json)
| JObject (members : list (string * json)).

(** [d[k] = v] on a dict kept in insertion order. *)
Fixpoint dict_set {A : Type} (k : string) (v : A) (d : list (string * A))
  : list (string * A) :=
  match d with
  | [] => [(k, v)]
  | (k', v') :: rest =>
      if k' =? k then (k', v) :: rest else (k', v') :: dict_set k v rest
  end.

(** [d.get(k, default)]. *)
Definition dict_get {A : Type} (d : list (string * A)) (k : string) (default : A) : A :=
  match assoc k d with
  | Some v => v
  | None => default
  end.

(** Member access along a path of keys. *)
Fixpoint json_get (keys : list string) (j : json) : option json :=
  match keys with
  | [] => Some j
  | k :: rest =>
      match j with
      | JObject members =>
          match assoc k members with
          | Some v => json_get rest v
          | None => None
          end
      | _ => None
      end
  end.

(** ** The checker *)

Record RSRChecker : Type := {
  repo_path : list string;
  report : ComplianceReport
}.

Section Checker.

(** The file system the checker runs on, from its root. *)
Variable fs : node.

(** [re.search(pattern, content, re.IGNORECASE | re.MULTILINE)], with the
    match object reduced to its truth value; an ill-formed pattern raises. *)
Variable re_search : string -> string -> result bool.

Definition lookup (self : RSRChecker) (path : string) : option node :=
  walk [] fs (joinpath (repo_path self) path).

(** [check_file_exists] where [Path.exists()] returns; [path_exists] is the
    test with the error that leaves it. *)
Definition check_file_exists (self : RSRChecker) (path : string) : bool :=
  match lookup self path with
  | Some _ => true
  | None => false
  end.

(** [file_path.read_text(encoding='utf-8')]. *)
Definition read_text (self : RSRChecker) (path : string) : result string :=
  match lookup self path with
  | Some (File strict _) => strict
  | Some (Dir _) =>
      raise (OSError ("[Errno 21] Is a directory: '"
                        ++ path_str (joinpath (repo_path self) path) ++ "'"))
  | None =>
      raise (OSError ("[Errno 2] No such file or directory: '"
                        ++ path_str (joinpath (repo_path self) path) ++ "'"))
  end.

Fixpoint find_missing (content : string) (patterns missing : list string)
  : result (list string) :=
  match patterns with
  | [] => ret missing
  | pattern :: rest =>
      found <- re_search pattern content ;;
      find_missing content rest
                   (if negb found then (missing ++ [pattern])%list else missing)
  end.

(** A pattern is found in the content. *)
Definition matches (content pattern : string) : bool :=
  match re_search pattern content with
  | inr true => true
  | _ => false
  end.

(** The patterns that are not found, in the order of the list. *)
Definition missing_patterns (content : string) (patterns : list string) : list string :=
  filter (fun pattern => negb (matches content pattern)) patterns.

(** Every pattern is a well-formed regex: the search does not raise. *)
Definition well_formed (content : string) (patterns : list string) : Prop :=
  Forall (fun pattern => exists found, re_search pattern content = inr found) patterns.

Definition check_file_content (self : RSRChecker) (path : string)
           (patterns : list string) : result (bool * string) :=
  if negb (check_file_exists self path)
  then ret (false, "File " ++ path ++ " not found")
  else
    catch
      (content <- read_text self path ;;
       missing <- find_missing content patterns [] ;;
       match missing with
       | _ :: _ => ret (false, "Missing patterns: " ++ join ", " (firstn 3 missing))
       | [] => ret (true, "All required content present")
       end)
      (fun e => ret (false, "Error reading file: " ++ str_exn e)).

(** [check_file_content] with the existence test as the operating system
    answers it.  The test stands before the [try] (line 82), so what it raises
    leaves the method; [check_file_content] above is this method on the
    paths where the test returns. *)
Definition check_file_content_os (self : RSRChecker) (path : string)
           (patterns : list string) : result (bool * string) :=
  found <- path_exists fs (joinpath (repo_path self) path) ;;
  if negb found
  then ret (false, "File " ++ path ++ " not found")
  else
    catch
      (content <- read_text self path ;;
       missing <- find_missing content patterns [] ;;
       match missing with
       | _ :: _ => ret (false, "Missing patterns: " ++ join ", " (firstn 3 missing))
       | [] => ret (true, "All required content present")
       end)
      (fun e => ret (false, "Error reading file: " ++ str_exn e)).

(** *** Gold level, first check (formal verification or advanced testing) *)

Definition formal_files : list string :=
  ["proofs/"; "formal/"; "coq/"; "isabelle/"; "tla+/"].

Definition property_libs : list string :=
  ["hypothesis"; "quickcheck"; "proptest"].

(** The loop over [(repo_path / "tests").rglob("*")], with its [break]
    and its bare [except: pass]. *)
Fixpoint scan_test_files (files : list node) : bool :=
  match files with
  | [] => false
  | test_file :: rest =>
      if is_file test_file then
        match read_text_ignore test_file with
        | inr content =>
            if existsb (fun lib => contains lib content) property_libs
            then true
            else scan_test_files rest
        | inl _ => scan_test_files rest
        end
      else scan_test_files rest
  end.

Definition has_formal (self : RSRChecker) : bool :=
  existsb (check_file_exists self) formal_files.

Definition has_property_tests (self : RSRChecker) : bool :=
  if check_file_exists self "tests"
  then match lookup self "tests" with
       | Some tests => scan_test_files (rglob_all tests)
       | None => false
       end
  else false.

Definition check_gold_level_formal (self : RSRChecker) : ComplianceCheck :=
  let status := has_formal self || has_property_tests self in
  let details :=
    ((if has_formal self then ["Formal verification"] else [])
       ++ (if has_property_tests self then ["Property-based testing"] else []))%list in
  {| name := "Formal verification";
     description := "Formal proofs or property-based testing";
     level := "Gold";
     category := "Quality";
     required := true;
     status := status;
     details := match details with
                | [] => "Not found"
                | _ => join ", " details
                end;
     weight := 1%Q |}.

End Checker.

(** A regex engine for concrete runs.  On a pattern made of letters, digits
    and spaces only, [re.search] with [re.IGNORECASE] is a case-insensitive
    substring search; this engine rejects every other pattern. *)
Definition plain_char (c : ascii) : bool :=
  let n := nat_of_ascii c in
  ((48 <=? n) && (n <=? 57) || (65 <=? n) && (n <=? 90)
   || (97 <=? n) && (n <=? 122) || (n =? 32))%nat.

Definition literal_re_search (pattern content : string) : result bool :=
  if forallb plain_char (list_ascii_of_string pattern)
  then ret (contains (lower pattern) (lower content))
  else raise (ReError ("unsupported pattern: " ++ pattern)).

(** The same engine, with the error of [re.compile] on a lone opening
    parenthesis. *)
Definition paren_re_search (pattern content : string) : result bool :=
  if pattern =? "("
  then raise (ReError "missing ), unterminated subpattern at position 0")
  else literal_re_search pattern content.

(** A file name of 256 bytes. *)
Definition long_name : string :=
  string_of_list_ascii (repeat "a"%char 256).

(** A string of ASCII characters only. *)
Definition is_ascii (s : string) : bool :=
  forallb (fun c => (nat_of_ascii c <? 128)%nat) (list_ascii_of_string s).

(** [n] lies somewhere below the directory [d]. *)
Inductive below : node -> node -> Prop :=
| below_child (entry_name : string) (child : node) (entries : list (string * node)) :
    In (entry_name, child) entries -> below (Dir entries) child
| below_deeper (entry_name : string) (child n : node) (entries : list (string * node)) :
    In (entry_name, child) entries -> below child n -> below (Dir entries) n.

(** [sub] occurs in [s]. *)
Definition occurs_in (sub s : string) : Prop :=
  exists before after : string, s = before ++ sub ++ after.

Definition formal_names : list string :=
  ["proofs"; "formal"; "coq"; "isabelle"; "tla+"].

(** One of the formal-verification paths is a directory of the repository. *)
Definition formal_directory_exists (fs : node) (self : RSRChecker) : Prop :=
  exists (d : string) (entries : list (string * node)),
    In d formal_names /\ walk [] fs (repo_path self ++ [d]) = Some (Dir entries).

(** One of the formal-verification paths is an entry of the repository, a
    directory or a file. *)
Definition formal_entry_exists (fs : node) (self : RSRChecker) : Prop :=
  exists (d : string) (n : node),
    In d formal_names /\ walk [] fs (repo_path self ++ [d]) = Some n.

(** A readable regular file below the repository's [tests] entry holds one of
    the property-based-testing markers. *)
Definition test_file_has_marker (fs : node) (self : RSRChecker) : Prop :=
  exists (tests : node) (strict : result string) (content lib : string),
    walk [] fs (repo_path self ++ ["tests"]) = Some tests /\
    below tests (File strict (inr content)) /\
    In lib ["hypothesis"; "quickcheck"; "proptest"] /\
    occurs_in lib content.

(** A repository whose only entry is a regular file named [coq]. *)
Definition coq_file_fs : node :=
  Dir [("repo", Dir [("coq", File (inr "Require Import List.")
                                  (inr "Require Import List."))])].

(** A sample repository at [/repo]. *)
Definition sample_fs : node :=
  Dir [("repo",
        Dir [("README.md",
              File (inr "Demo project Installation steps and License terms")
                   (inr "Demo project Installation steps and License terms"));
             ("LICENSE",
              File (inl (UnicodeDecodeError
                           "'utf-8' codec can't decode byte 0xff in position 0: invalid start byte"))
                   (inr "MIT"));
             ("tests",
              Dir [("unit", Dir [("test_props.py",
                                  File (inr "from hypothesis import given")
                                       (inr "from hypothesis import given"))])])])].

Definition sample_checker : RSRChecker :=
  {| repo_path := ["repo"]; report := sample_report |}.

(** *** JSON export *)

Definition check_to_json (c : ComplianceCheck) : json :=
  JObject [("name", JString (name c));
           ("description", JString (description c));
           ("category", JString (category c));
           ("status", JBool (status c));
           ("details", JString (details c))].

Definition level_to_json (self : RSRChecker) (level : string) : result json :=
  '(passed, total, percentage) <- get_level_score (report self) (capitalize level) ;;
  checks <- getattr (report self) (level ++ "_checks") ;;
  ret (JObject
         [("score", JObject [("passed", JInt (Z.of_nat passed));
                             ("total", JInt (Z.of_nat total));
                             ("percentage", JFloat percentage)]);
          ("checks", JArray (map check_to_json checks))]).

Fixpoint export_levels (self : RSRChecker) (levels : list string)
         (acc : list (string * json)) : result (list (string * json)) :=
  match levels with
  | [] => ret acc
  | level :: rest =>
      entry <- level_to_json self level ;;
      export_levels self rest (dict_set level entry acc)
  end.

(** [export_json] up to line 674: the path it writes and the document handed
    to [json.dump]; [now] is [datetime.now().isoformat()].  The write and the
    print that follow are in [export_json_file]. *)
Definition export_json (self : RSRChecker) (now : string) (output_file : string)
  : result (string * json) :=
  overall <- get_overall_level (report self) ;;
  levels <- export_levels self ["bronze"; "silver"; "gold"; "platinum"] [] ;;
  let data := JObject [("timestamp", JString now);
                       ("repository", JString (path_str (repo_path self)));
                       ("overall_level", JString overall);
                       ("levels", JObject levels)] in
  ret (path_str (joinpath (repo_path self) output_file), data).

(** The score object of a level in an exported document. *)
Definition exported_score (data : json) (level : string) : option json :=
  json_get ["levels"; level; "score"] data.

(** The score object that [get_level_score] describes. *)
Definition score_json (score : nat * nat * Float64.float) : json :=
  let '(passed, total, percentage) := score in
  JObject [("passed", JInt (Z.of_nat passed));
           ("total", JInt (Z.of_nat total));
           ("percentage", JFloat percentage)].

(** The entry of a level in the exported document, from its check list. *)
Definition level_json (checks : list ComplianceCheck) : json :=
  JObject
    [("score", JObject [("passed", JInt (Z.of_nat (passed_of checks)));
                        ("total", JInt (Z.of_nat (length checks)));
                        ("percentage", JFloat (pct checks))]);
     ("checks", JArray (map check_to_json checks))].

(** *** Badge *)

Definition colors : list (string * string) :=
  [("Platinum", "purple");
   ("Gold", "yellow");
   ("Silver", "silver");
   ("Bronze", "orange");
   ("Non-compliant", "red")].

(** The badge URL for a level string: the body of [generate_badge] after the
    level is read. *)
Definition badge_url (level : string) : string :=
  let color := dict_get colors level "lightgrey" in
  "https://img.shields.io/badge/RSR-" ++ replace " " "%20" level ++ "-" ++ color.

Definition generate_badge (self : RSRChecker) : result string :=
  level <- get_overall_level (report self) ;;
  ret (badge_url level).

(** *** Command line and exit status *)


Section Process.

(** The file system, and what a [print] call does: it returns, or it raises
    ([UnicodeEncodeError] when the encoding of the console lacks a symbol of
    the report, [OSError] when the console is closed).  Every [print] of the
    program has this one outcome. *)
Variable fs : node.
Variable stdout : result unit.






End Process.



(** ** The checklist

    The four [check_*_level] methods and [run_checks]; a method that assigns
    to [self.report] returns the checker it leaves. *)

(** [ComplianceCheck(name=..., description=..., level=..., category=...,
    status=..., details=...)]: [required] and [weight] take the defaults of
    the dataclass. *)
Definition new_check (name description level category : string) (status : bool)
           (details : string) : ComplianceCheck :=
  {| name := name; description := description; level := level;
     category := category; required := true; status := status;
     details := details; weight := 1%Q |}.


Definition set_bronze_checks (self : RSRChecker) (checks : list ComplianceCheck)
  : RSRChecker :=
  {| repo_path := repo_path self;
     report := {| bronze_checks := checks;
                  silver_checks := silver_checks (report self);
                  gold_checks := gold_checks (report self);
                  platinum_checks := platinum_checks (report self) |} |}.

Definition set_silver_checks (self : RSRChecker) (checks : list ComplianceCheck)
  : RSRChecker :=
  {| repo_path := repo_path self;
     report := {| bronze_checks := bronze_checks (report self);
                  silver_checks := checks;
                  gold_checks := gold_checks (report self);
                  platinum_checks := platinum_checks (report self) |} |}.

Definition set_gold_checks (self : RSRChecker) (checks : list ComplianceCheck)
  : RSRChecker :=
  {| repo_path := repo_path self;
     report := {| bronze_checks := bronze_checks (report self);
                  silver_checks := silver_checks (report self);
                  gold_checks := checks;
                  platinum_checks := platinum_checks (report self) |} |}.

Definition set_platinum_checks (self : RSRChecker) (checks : list ComplianceCheck)
  : RSRChecker :=
  {| repo_path := repo_path self;
     report := {| bronze_checks := bronze_checks (report self);
                  silver_checks := silver_checks (report self);
                  gold_checks := gold_checks (report self);
                  platinum_checks := checks |} |}.

(** [str(n)] for a non-negative int. *)
Definition str_of_nat (n : nat) : string := NilZero.string_of_uint (Nat.to_uint n).

(** Matching of one path component against a glob pattern whose only
    wildcard is [*], as in every pattern of the checker; the match is
    case-sensitive. *)
Fixpoint fnmatch (pattern : string) : string -> bool :=
  match pattern with
  | EmptyString => fun name => match name with EmptyString => true | _ => false end
  | String c pattern' =>
      if Ascii.eqb c "*" then
        fix star (name : string) : bool :=
          fnmatch pattern' name ||
          match name with
          | EmptyString => false
          | String _ name' => star name'
          end
      else
        fun name =>
          match name with
          | EmptyString => false
          | String d name' => Ascii.eqb c d && fnmatch pattern' name'
          end
  end.

(** The entries reached from [n] along the pattern components [parts]. *)
Fixpoint select (parts : list string) (n : node) : list node :=
  match parts with
  | [] => [n]
  | part :: rest =>
      match n with
      | File _ _ => []
      | Dir entries =>
          flat_map (fun entry =>
                      let '(entry_name, child) := entry in
                      if fnmatch part entry_name then select rest child else [])
                   entries
      end
  end.

(** A directory and the directories below it, parents first. *)
Fixpoint all_dirs (n : node) : list node :=
  match n with
  | File _ _ => []
  | Dir entries =>
      n :: flat_map (fun entry => let '(_, child) := entry in all_dirs child) entries
  end.

(** [root.rglob(pattern)], that is [root.glob("**/" + pattern)]. *)
Definition rglob (pattern : string) (root : node) : list node :=
  flat_map (select (path_parts pattern)) (all_dirs root).

(** [file_path.read_text(encoding='utf-8')] on an entry. *)
Definition read_text_strict (n : node) : result string :=
  match n with
  | File strict _ => strict
  | Dir _ => raise (OSError "[Errno 21] Is a directory")
  end.

Section Checklist.

Variable fs : node.
Variable re_search : string -> string -> result bool.

(** [self.repo_path.rglob(pattern)]. *)
Definition repo_rglob (self : RSRChecker) (pattern : string) : list node :=
  match walk [] fs (repo_path self) with
  | Some root => rglob pattern root
  | None => []
  end.

Definition found_or_missing (status : bool) : string :=
  if status then "Found" else "Missing".

Definition check_bronze_level (self : RSRChecker) : result RSRChecker :=
  '(status1, details1) <-
    check_file_content fs re_search self "README.md"
      ["##?\s+Installation"; "##?\s+Usage"; "##?\s+Features"; "##?\s+License"] ;;
  '(status2, details2) <-
    check_file_content fs re_search self "LICENSE"
      ["SPDX-License-Identifier:"; "(MIT|Apache|GPL|AGPL|BSD)"] ;;
  '(status3, details3) <-
    check_file_content fs re_search self "SECURITY.md"
      ["##?\s+Reporting"; "##?\s+Supported Versions"; "(security@|contact)"] ;;
  let status4 := check_file_exists fs self "CONTRIBUTING.md" in
  let status5 := check_file_exists fs self "CODE_OF_CONDUCT.md" in
  let status6 := check_file_exists fs self "MAINTAINERS.md" in
  let status7 := check_file_exists fs self "CHANGELOG.md" in
  '(status8, details8) <-
    check_file_content fs re_search self ".well-known/security.txt"
      ["Contact:"; "Expires:"] ;;
  let status9 := check_file_exists fs self ".well-known/ai.txt" in
  let status10 := check_file_exists fs self ".well-known/humans.txt" in
  let status11 :=
    check_file_exists fs self "justfile" || check_file_exists fs self "Makefile" in
  let status12 := check_file_exists fs self "flake.nix" in
  let status13 :=
    existsb (check_file_exists fs self)
            [".gitlab-ci.yml"; ".github/workflows"; ".circleci/config.yml"] in
  let status14 :=
    check_file_exists fs self "governance/TPCF.md"
    || check_file_exists fs self "governance/PROJECT_GOVERNANCE.md"
    || check_file_exists fs self "GOVERNANCE.md" in
  let status15 := check_file_exists fs self ".gitignore" in
  let status16 := existsb (check_file_exists fs self) ["tests"; "test"; "spec"] in
  let status17 :=
    check_file_exists fs self "DOCUMENTATION_INDEX.md"
    || check_file_exists fs self "docs/README.md" in
  let status18 :=
    existsb (check_file_exists fs self)
            ["package.json"; "Cargo.toml"; "pyproject.toml"; "setup.py"; "setup.cfg"] in
  ret (set_bronze_checks self
         [new_check "README.md"
                    "Comprehensive README with installation, usage, features, license"
                    "Bronze" "Documentation" status1 details1;
          new_check "LICENSE" "LICENSE file with SPDX identifier"
                    "Bronze" "Legal" status2 details2;
          new_check "SECURITY.md"
                    "Security policy with vulnerability disclosure process"
                    "Bronze" "Security" status3 details3;
          new_check "CONTRIBUTING.md" "Contribution guidelines"
                    "Bronze" "Community" status4 (found_or_missing status4);
          new_check "CODE_OF_CONDUCT.md" "Code of conduct for community"
                    "Bronze" "Community" status5 (found_or_missing status5);
          new_check "MAINTAINERS.md" "List of project maintainers"
                    "Bronze" "Governance" status6 (found_or_missing status6);
          new_check "CHANGELOG.md" "Version history and changes"
                    "Bronze" "Documentation" status7 (found_or_missing status7);
          new_check ".well-known/security.txt" "RFC 9116 compliant security.txt"
                    "Bronze" "Security" status8 details8;
          new_check ".well-known/ai.txt" "AI training policy declaration"
                    "Bronze" "Legal" status9 (found_or_missing status9);
          new_check ".well-known/humans.txt" "Team attribution file"
                    "Bronze" "Community" status10 (found_or_missing status10);
          new_check "Build system" "justfile or Makefile for build automation"
                    "Bronze" "Build" status11 (found_or_missing status11);
          new_check "flake.nix" "Nix flakes for reproducible builds"
                    "Bronze" "Build" status12 (found_or_missing status12);
          new_check "CI/CD" "Continuous integration configuration"
                    "Bronze" "Build" status13 (found_or_missing status13);
          new_check "TPCF Governance"
                    "Tri-Perimeter Contribution Framework documentation"
                    "Bronze" "Governance" status14 (found_or_missing status14);
          new_check ".gitignore" "Git ignore file"
                    "Bronze" "Build" status15 (found_or_missing status15);
          new_check "Test structure" "Test directory or files"
                    "Bronze" "Quality" status16 (found_or_missing status16);
          new_check "Documentation index" "Centralized documentation navigation"
                    "Bronze" "Documentation" status17 (found_or_missing status17);
          new_check "Project metadata" "Language-specific project metadata file"
                    "Bronze" "Build" status18 (found_or_missing status18)]).

Definition check_silver_level (self : RSRChecker) : result RSRChecker :=
  let status1 :=
    check_file_exists fs self "tools/rsr_checker.py"
    || check_file_exists fs self "scripts/rsr_checker.py" in
  let status2 := check_file_exists fs self "RSR_COMPLIANCE.md" in
  '(status3, details3) <-
    (if check_file_exists fs self "LICENSE"
     then check_file_content fs re_search self "LICENSE"
            ["Palimpsest"; "(MIT OR|Apache-2\.0 OR|GPL-\d\.\d OR)"]
     else ret (false, "LICENSE file not found")) ;;
  let status4 :=
    forallb (fun f => check_file_exists fs self (".well-known/" ++ f))
            ["security.txt"; "ai.txt"; "humans.txt"] in
  let found :=
    list_sum (map (fun _ => 1%nat)
                  (filter (check_file_exists fs self)
                          ["INSTALLATION_GUIDE.md"; "USAGE_GUIDE.md"; "FEATURES.md"])) in
  let status5 := (2 <=? found)%nat in
  '(status6, details6) <-
    (if check_file_exists fs self "flake.nix"
     then check_file_content fs re_search self "flake.nix"
            ["inputs"; "outputs"; "packages"]
     else ret (false, "flake.nix not found")) ;;
  ret (set_silver_checks self
         [new_check "RSR checker tool" "Automated compliance verification tool"
                    "Silver" "Quality" status1 (found_or_missing status1);
          new_check "RSR_COMPLIANCE.md" "Detailed compliance assessment"
                    "Silver" "Documentation" status2 (found_or_missing status2);
          new_check "Palimpsest licensing" "Dual licensing with Palimpsest framework"
                    "Silver" "Legal" status3 details3;
          new_check "Complete .well-known" "All required .well-known files present"
                    "Silver" "Security" status4
                    (if status4 then "Complete" else "Incomplete");
          new_check "Advanced documentation"
                    "Multiple comprehensive guides (installation, usage, features)"
                    "Silver" "Documentation" status5
                    (str_of_nat found ++ "/3 guides found");
          new_check "Nix flakes" "Complete Nix flakes configuration"
                    "Silver" "Build" status6 details6]).

(** *** Gold level, second check (multi-language support) *)

Definition lang_indicators : list (string * list string) :=
  [("Python", ["*.py"; "setup.py"; "pyproject.toml"]);
   ("Rust", ["Cargo.toml"; "src/*.rs"]);
   ("JavaScript", ["package.json"; "*.js"]);
   ("TypeScript", ["tsconfig.json"; "*.ts"]);
   ("Go", ["go.mod"; "*.go"]);
   ("Ada", ["*.adb"; "*.ads"]);
   ("Elixir", ["mix.exs"; "*.ex"]);
   ("Haskell", ["*.hs"; "stack.yaml"])].

(** [if list(self.repo_path.rglob(indicator))]. *)
Definition indicator_found (self : RSRChecker) (indicator : string) : bool :=
  match repo_rglob self indicator with
  | [] => false
  | _ :: _ => true
  end.

(** The two nested loops that fill [languages_found]. *)
Fixpoint find_languages (self : RSRChecker) (table : list (string * list string))
  : list string :=
  match table with
  | [] => []
  | (lang, indicators) :: rest =>
      if existsb (indicator_found self) indicators
      then lang :: find_languages self rest
      else find_languages self rest
  end.

Definition check_gold_level_languages (self : RSRChecker) : ComplianceCheck :=
  let languages_found := find_languages self lang_indicators in
  let status := (2 <=? length languages_found)%nat in
  new_check "Multi-language support" "Support for 2+ programming languages"
            "Gold" "Architecture" status
            (match languages_found with
             | [] => "Single language"
             | _ => "Languages: " ++ join ", " languages_found
             end).

(** *** Gold level, third check (advanced security) *)

Definition security_tools : list string := ["bandit"; "semgrep"; "snyk"; "trivy"].

(** The loop [for wf in path.rglob("*.yml"): content += wf.read_text(...)]. *)
Fixpoint read_workflows (workflows : list node) (content : string) : result string :=
  match workflows with
  | [] => ret content
  | wf :: rest =>
      text <- read_text_strict wf ;;
      read_workflows rest (content ++ text)
  end.

(** The text of a CI configuration: the file itself, or the workflow files
    of a directory. *)
Definition ci_content (n : node) : result string :=
  if is_file n then read_text_strict n
  else read_workflows (rglob "*.yml" n) "".

(** The loop over the CI files, with its [break] and its bare [except: pass]. *)
Fixpoint scan_ci_files (self : RSRChecker) (ci_files : list string) : bool :=
  match ci_files with
  | [] => false
  | ci_file :: rest =>
      match lookup fs self ci_file with
      | Some n =>
          match ci_content n with
          | inr content =>
              if existsb (fun tool => contains tool content) security_tools
              then true
              else scan_ci_files self rest
          | inl _ => scan_ci_files self rest
          end
      | None => scan_ci_files self rest
      end
  end.

Definition has_security_scanning (self : RSRChecker) : bool :=
  scan_ci_files self [".gitlab-ci.yml"; ".github/workflows"].

Definition has_dependency_management (self : RSRChecker) : bool :=
  check_file_exists fs self "requirements.txt" || check_file_exists fs self "Cargo.lock".

Definition has_sbom (self : RSRChecker) : bool :=
  check_file_exists fs self "sbom.json" || check_file_exists fs self "bom.xml".

Definition security_features (self : RSRChecker) : list string :=
  ((if has_security_scanning self then ["Security scanning"] else [])
     ++ (if has_dependency_management self then ["Dependency management"] else [])
     ++ (if has_sbom self then ["SBOM"] else []))%list.

Definition check_gold_level_security (self : RSRChecker) : ComplianceCheck :=
  let features := security_features self in
  let status := (2 <=? length features)%nat in
  new_check "Advanced security" "Security scanning, SBOM, or other advanced features"
            "Gold" "Security" status
            (match features with
             | [] => "Not found"
             | _ => join ", " features
             end).

Definition check_gold_level (self : RSRChecker) : RSRChecker :=
  set_gold_checks self
    [check_gold_level_formal fs self;
     check_gold_level_languages self;
     check_gold_level_security self].

(** *** Platinum level *)

Definition crdt_terms : list string :=
  ["crdt"; "conflict-free"; "operational transform"; "automerge"].

(** The loop over [self.repo_path.rglob("*.py")], with its [break] and its
    bare [except: pass].  Text is a string of 8-bit characters; [lower] acts
    on the ASCII letters, which is what decides whether one of the (ASCII)
    terms occurs in [content.lower()]. *)
Fixpoint scan_py_files (files : list node) : bool :=
  match files with
  | [] => false
  | py_file :: rest =>
      match read_text_ignore py_file with
      | inr content =>
          if existsb (fun term => contains term (lower content)) crdt_terms
          then true
          else scan_py_files rest
      | inl _ => scan_py_files rest
      end
  end.

Definition has_crdt_dir (self : RSRChecker) : bool :=
  existsb (check_file_exists fs self) ["crdt/"; "offline/"; "sync/"].

Definition has_crdt_code (self : RSRChecker) : bool :=
  scan_py_files (repo_rglob self "*.py").

Definition found_or_not (status : bool) : string :=
  if status then "Found" else "Not found".

Definition check_platinum_level (self : RSRChecker) : RSRChecker :=
  let status1 := has_crdt_dir self || has_crdt_code self in
  let status2 :=
    existsb (check_file_exists fs self) ["papers/"; "docs/papers/"; "PAPER.md"] in
  let status3 :=
    existsb (check_file_exists fs self)
            ["docs/conference-materials.md"; "talks/"; "presentations/"] in
  let status4 :=
    existsb (check_file_exists fs self) ["isos/"; "docs/isos.md"; ".isos.toml"] in
  set_platinum_checks self
    [new_check "CRDT/Offline-first"
               "Conflict-free replicated data types or offline-first architecture"
               "Platinum" "Architecture" status1 (found_or_not status1);
     new_check "Academic paper" "Research paper or formal publication"
               "Platinum" "Research" status2 (found_or_not status2);
     new_check "Conference materials"
               "Talk proposals, slides, or presentation materials"
               "Platinum" "Research" status3 (found_or_not status3);
     new_check "iSOS integration" "Integrated Sovereign Operating System framework"
               "Platinum" "Architecture" status4 (found_or_not status4)].

(** [run_checks] after its two [print] lines, which [main_run] has, and
    where the existence tests return. *)
Definition run_checks (self : RSRChecker) : result RSRChecker :=
  self1 <- check_bronze_level self ;;
  self2 <- check_silver_level self1 ;;
  ret (check_platinum_level (check_gold_level self2)).

End Checklist.

(** The check lists that the four level methods leave in the report. *)
Definition bronze_of (fs : node) (re_search : string -> string -> result bool)
           (self : RSRChecker) : list ComplianceCheck :=
  match check_bronze_level fs re_search self with
  | inr self' => bronze_checks (report self')
  | inl _ => []
  end.

Definition silver_of (fs : node) (re_search : string -> string -> result bool)
           (self : RSRChecker) : list ComplianceCheck :=
  match check_silver_level fs re_search self with
  | inr self' => silver_checks (report self')
  | inl _ => []
  end.

Definition gold_of (fs : node) (self : RSRChecker) : list ComplianceCheck :=
  gold_checks (report (check_gold_level fs self)).

Definition platinum_of (fs : node) (self : RSRChecker) : list ComplianceCheck :=
  platinum_checks (report (check_platinum_level fs self)).

(** The status of the check called [check_name], when the list has one. *)
Definition status_of (check_name : string) (checks : list ComplianceCheck)
  : option bool :=
  option_map status (find (fun c => name c =? check_name) checks).

(** A check list of a level: its length, the level its checks carry, the
    dataclass defaults, and names that tell the checks apart. *)
Definition well_shaped (lvl : string) (n : nat) (checks : list ComplianceCheck) : Prop :=
  length checks = n /\
  Forall (fun c => level c = lvl /\ required c = true /\ weight c = 1%Q) checks /\
  NoDup (map name checks).

(** The overall level of the reference checklist, from the numbers of passed
    checks: all 18 Bronze, all 6 Silver, 2 of 3 Gold, 3 of 4 Platinum. *)
Definition checklist_gate (bronze silver gold platinum : nat) : string :=
  if (bronze <? 18)%nat then "Non-compliant"
  else if (silver <? 6)%nat then "Bronze"
  else if (gold <? 2)%nat then "Silver"
  else if (platinum <? 3)%nat then "Gold"
  else "Platinum".


(** The gate in exact integer arithmetic: a level is complete when it has a
    check and all its checks passed, and reaches 66% when it has a check and
    [passed / total >= 33 / 50]. *)
Definition complete (checks : list ComplianceCheck) : bool :=
  (0 <? length checks)%nat && (passed_of checks =? length checks)%nat.

Definition reaches_66 (checks : list ComplianceCheck) : bool :=
  (0 <? length checks)%nat && (33 * length checks <=? 50 * passed_of checks)%nat.

Definition exact_gate (r : ComplianceReport) : string :=
  if negb (complete (bronze_checks r)) then "Non-compliant"
  else if negb (complete (silver_checks r)) then "Bronze"
  else if negb (reaches_66 (gold_checks r)) then "Silver"
  else if negb (reaches_66 (platinum_checks r)) then "Gold"
  else "Platinum".

(** An exported check entry that passed. *)
Definition json_status_true (item : json) : bool :=
  match json_get ["status"] item with
  | Some (JBool true) => true
  | _ => false
  end.

(** The score of a level in an exported document can be recomputed from the
    checks exported beside it. *)
Definition exported_level_consistent (data : json) (level : string) : Prop :=
  exists (items : list json) (passed total : nat) (percentage : Float64.float),
    json_get ["levels"; level; "checks"] data = Some (JArray items) /\
    json_get ["levels"; level; "score"] data =
      Some (JObject [("passed", JInt (Z.of_nat passed));
                     ("total", JInt (Z.of_nat total));
                     ("percentage", JFloat percentage)]) /\
    total = length items /\
    passed = length (filter json_status_true items) /\
    percentage = percentage_of passed total.

(** The percentage exported for a level, 0 when the document has none. *)
Definition exported_percentage (data : json) (level : string) : Float64.float :=
  match json_get ["levels"; level; "score"; "percentage"] data with
  | Some (JFloat x) => x
  | _ => 0%Q
  end.

(** [n] is the entry called [entry_name] of the directory [root] or of a
    directory below it. *)
Definition entry_in_tree (root : node) (entry_name : string) (n : node) : Prop :=
  exists (d : node) (entries : list (string * node)),
    (d = root \/ below root d) /\ d = Dir entries /\ In (entry_name, n) entries.

(** One of the indicators of [lang] matches somewhere in the repository. *)
Definition language_detected (fs : node) (self : RSRChecker) (lang : string) : Prop :=
  exists (indicators : list string) (indicator : string),
    In (lang, indicators) lang_indicators /\ In indicator indicators /\
    repo_rglob fs self indicator <> [].

(** A pattern component without wildcard. *)
Definition no_star (s : string) : Prop := ~ In "*"%char (list_ascii_of_string s).

(** ** Facts about binary64 rounding *)

Module Float64Facts.
Import Float64.
Local Open Scope Q_scope.

Lemma rne_bounds (y : Q) : (Qfloor y <= rne y <= Qfloor y + 1)%Z.
Proof.
  unfold rne. destruct (_ ?= _); try destruct (Z.even _); lia.
Qed.

Lemma rne_exact (n : Z) : rne (inject_Z n) = n.
Proof.
  unfold rne. rewrite Qfloor_Z.
  destruct (Qcompare_spec (inject_Z n - inject_Z n) (1 # 2)); lra || reflexivity.
Qed.

Lemma rne_le_Z (y : Q) (n : Z) : y <= inject_Z n -> (rne y <= n)%Z.
Proof.
  intros Hy.
  pose proof (rne_bounds y) as Hb.
  pose proof (Qfloor_resp_le _ _ Hy) as Hf. rewrite Qfloor_Z in Hf.
  destruct (Z.eq_dec (Qfloor y) n) as [E|E]; [|lia].
  assert (Hyn : y == inject_Z n).
  { apply Qle_antisym; [assumption|]. rewrite <- E. apply Qfloor_le. }
  unfold rne. rewrite E.
  destruct (Qcompare_spec (y - inject_Z n) (1 # 2)); lra || lia.
Qed.

Lemma Z_le_rne (y : Q) (n : Z) : inject_Z n <= y -> (n <= rne y)%Z.
Proof.
  intros Hy.
  pose proof (rne_bounds y) as Hb.
  pose proof (Qfloor_resp_le _ _ Hy) as Hf. rewrite Qfloor_Z in Hf. lia.
Qed.

Lemma rne_mono (y y' : Q) : y <= y' -> (rne y <= rne y')%Z.
Proof.
  intros Hy.
  pose proof (Qfloor_resp_le _ _ Hy) as Hf.
  pose proof (rne_bounds y) as Hb. pose proof (rne_bounds y') as Hb'.
  destruct (Z.eq_dec (Qfloor y) (Qfloor y')) as [E|E]; [|lia].
  unfold rne. rewrite <- E.
  destruct (Qcompare_spec (y - inject_Z (Qfloor y)) (1 # 2));
    destruct (Qcompare_spec (y' - inject_Z (Qfloor y)) (1 # 2));
    try destruct (Z.even _); try lia; lra.
Qed.

Lemma rne_compat (y y' : Q) : y == y' -> rne y = rne y'.
Proof.
  intros E. apply Z.le_antisymm; apply rne_mono; rewrite E; apply Qle_refl.
Qed.


Lemma two_neq0 : ~ 2 == 0.
Proof. lra. Qed.

Lemma pow2_pos (e : Z) : 0 < 2 ^ e.
Proof. apply Qpower_0_lt. lra. Qed.

Lemma pow2_succ (e : Z) : 2 ^ (e + 1) == 2 * 2 ^ e.
Proof. rewrite Qpower_plus by apply two_neq0. change (2 ^ 1) with 2. ring. Qed.

Lemma pow2_le (a b : Z) : (a <= b)%Z -> 2 ^ a <= 2 ^ b.
Proof. intros. apply Qpower_le_compat_l; [assumption | lra]. Qed.

Lemma pow2_lt_inv (a b : Z) : 2 ^ a < 2 ^ b -> (a < b)%Z.
Proof. intros. apply (Qpower_lt_compat_l_inv 2); [assumption | lra]. Qed.

Lemma pow2_Z (a : Z) : (0 <= a)%Z -> inject_Z (2 ^ a) == 2 ^ a.
Proof. intros. now rewrite Zpower_Qpower. Qed.

Lemma pow2_cancel (e : Z) : 2 ^ (- e) * 2 ^ e == 1.
Proof.
  rewrite <- Qpower_plus by apply two_neq0.
  replace (- e + e)%Z with 0%Z by lia. reflexivity.
Qed.

Lemma pow2_split (E e : Z) : (e <= E)%Z -> 2 ^ E == inject_Z (2 ^ (E - e)) * 2 ^ e.
Proof.
  intros H. rewrite pow2_Z by lia. rewrite <- Qpower_plus by apply two_neq0.
  replace (E - e + e)%Z with E by lia. reflexivity.
Qed.

Lemma log2_bounds (n : Z) : (0 < n)%Z ->
  2 ^ (Z.log2 n) <= inject_Z n /\ inject_Z n < 2 * 2 ^ (Z.log2 n).
Proof.
  intros Hn. destruct (Z.log2_spec n Hn) as [H1 H2].
  pose proof (Z.log2_nonneg n) as H0.
  split.
  - rewrite <- pow2_Z by assumption. now rewrite <- Zle_Qle.
  - rewrite <- pow2_succ, <- pow2_Z by lia. now rewrite <- Zlt_Qlt.
Qed.

Lemma ilog2_spec (x : Q) : 0 < x -> 2 ^ ilog2 x <= x /\ x < 2 ^ (ilog2 x + 1).
Proof.
  intros Hx. destruct x as [n d].
  assert (Hn : (0 < n)%Z) by (unfold Qlt in Hx; simpl in Hx; lia).
  unfold ilog2. cbn [Qnum Qden].
  destruct (log2_bounds n Hn) as [HA1 HA2].
  destruct (log2_bounds (Zpos d) eq_refl) as [HB1 HB2].
  set (a := Z.log2 n) in *. set (b := Z.log2 (Zpos d)) in *.
  pose proof (pow2_pos a) as PA. pose proof (pow2_pos b) as PB.
  assert (HX : (n # d) * inject_Z (Zpos d) == inject_Z n).
  { rewrite Qmake_Qdiv. field. discriminate. }
  assert (Hk : 2 ^ (a - b) == 2 ^ a / 2 ^ b) by (apply Qpower_minus, two_neq0).
  assert (Hlo : 2 ^ (a - b - 1) < n # d).
  { assert (E : 2 ^ (a - b - 1) == 2 ^ a / (2 * 2 ^ b)).
    { replace (a - b - 1)%Z with (a - (b + 1))%Z by lia.
      rewrite Qpower_minus by apply two_neq0. now rewrite pow2_succ. }
    rewrite E. apply Qlt_shift_div_r; [lra|]. nra. }
  assert (Hhi : n # d < 2 ^ (a - b + 1)).
  { rewrite pow2_succ, Hk.
    setoid_replace (2 * (2 ^ a / 2 ^ b)) with ((2 * 2 ^ a) / 2 ^ b) by (field; lra).
    apply Qlt_shift_div_l; [lra|]. nra. }
  destruct (Qle_bool (2 ^ (a - b)) (n # d)) eqn:E.
  - apply Qle_bool_iff in E. split; assumption.
  - split; [apply Qlt_le_weak; assumption|].
    replace (a - b - 1 + 1)%Z with (a - b)%Z by lia.
    apply Qnot_le_lt. intros C. apply Qle_bool_iff in C. congruence.
Qed.

Lemma ilog2_mono (x y : Q) : 0 < x -> x <= y -> (ilog2 x <= ilog2 y)%Z.
Proof.
  intros Hx Hxy.
  destruct (ilog2_spec x Hx) as [H1 _].
  destruct (ilog2_spec y) as [_ H2]; [lra|].
  assert (H : 2 ^ ilog2 x < 2 ^ (ilog2 y + 1)) by lra.
  apply pow2_lt_inv in H. lia.
Qed.

Lemma ilog2_le (x : Q) (k : Z) : 0 < x -> x <= 2 ^ k -> (ilog2 x <= k)%Z.
Proof.
  intros Hx Hk. destruct (ilog2_spec x Hx) as [H1 _].
  assert (H : 2 ^ ilog2 x < 2 ^ (k + 1)).
  { pose proof (pow2_succ k). pose proof (pow2_pos k). lra. }
  apply pow2_lt_inv in H. lia.
Qed.

(** Rounding never crosses a number of the grid it rounds to. *)
Lemma round_pos_le_grid (x : Q) (N E : Z) :
  0 < x -> (fexp (ilog2 x + 1) <= E)%Z ->
  x <= inject_Z N * 2 ^ E -> round_pos x <= inject_Z N * 2 ^ E.
Proof.
  intros Hx HE Hle. unfold round_pos.
  set (e := fexp (ilog2 x + 1)) in *.
  pose proof (pow2_pos e) as Pe. pose proof (pow2_pos (- e)) as Pne.
  pose proof (pow2_cancel e) as Hc.
  rewrite (pow2_split E e HE) in Hle |- *.
  rewrite Qmult_assoc, <- inject_Z_mult in Hle |- *.
  set (M := (N * 2 ^ (E - e))%Z) in *.
  apply Qmult_le_compat_r; [|lra].
  rewrite <- Zle_Qle. apply rne_le_Z.
  apply (Qmult_le_compat_r _ _ (2 ^ (- e))) in Hle; [|lra].
  rewrite <- Qmult_assoc in Hle.
  setoid_replace (2 ^ e * 2 ^ (- e)) with 1 in Hle by (rewrite Qmult_comm; exact Hc).
  lra.
Qed.

Lemma grid_le_round_pos (x : Q) (N E : Z) :
  0 < x -> (fexp (ilog2 x + 1) <= E)%Z ->
  inject_Z N * 2 ^ E <= x -> inject_Z N * 2 ^ E <= round_pos x.
Proof.
  intros Hx HE Hle. unfold round_pos.
  set (e := fexp (ilog2 x + 1)) in *.
  pose proof (pow2_pos e) as Pe. pose proof (pow2_pos (- e)) as Pne.
  pose proof (pow2_cancel e) as Hc.
  rewrite (pow2_split E e HE) in Hle |- *.
  rewrite Qmult_assoc, <- inject_Z_mult in Hle |- *.
  set (M := (N * 2 ^ (E - e))%Z) in *.
  apply Qmult_le_compat_r; [|lra].
  rewrite <- Zle_Qle. apply Z_le_rne.
  apply (Qmult_le_compat_r _ _ (2 ^ (- e))) in Hle; [|lra].
  rewrite <- Qmult_assoc in Hle.
  setoid_replace (2 ^ e * 2 ^ (- e)) with 1 in Hle by (rewrite Qmult_comm; exact Hc).
  lra.
Qed.

Lemma round_pos_mono (x y : Q) : 0 < x -> x <= y -> round_pos x <= round_pos y.
Proof.
  intros Hx Hxy. assert (Hy : 0 < y) by lra.
  pose proof (ilog2_mono x y Hx Hxy) as Hl.
  destruct (Z.eq_dec (fexp (ilog2 x + 1)) (fexp (ilog2 y + 1))) as [E|E].
  - unfold round_pos. rewrite <- E.
    set (e := fexp (ilog2 x + 1)).
    pose proof (pow2_pos e). pose proof (pow2_pos (- e)).
    apply Qmult_le_compat_r; [|lra].
    rewrite <- Zle_Qle. apply rne_mono.
    apply Qmult_le_compat_r; lra.
  - assert (Hxl : (ilog2 x + 1 <= ilog2 y)%Z /\ (fexp (ilog2 y + 1) = ilog2 y - 52)%Z
                  /\ (fexp (ilog2 x + 1) <= ilog2 y)%Z).
    { unfold fexp, prec, emin in *. lia. }
    destruct Hxl as (Hlt & Ey & Ex).
    apply Qle_trans with (inject_Z 1 * 2 ^ ilog2 y).
    + apply round_pos_le_grid; [assumption | assumption |].
      destruct (ilog2_spec x Hx) as [_ H2].
      pose proof (pow2_le _ _ Hlt). change (inject_Z 1) with 1. lra.
    + apply grid_le_round_pos; [assumption | lia |].
      destruct (ilog2_spec y Hy) as [H1 _]. change (inject_Z 1) with 1. lra.
Qed.

Lemma RN_pos (x : Q) : 0 < x -> RN x = round_pos x.
Proof.
  intros H. unfold RN. destruct (Qcompare_spec x 0); try lra; reflexivity.
Qed.

Lemma RN_0 (x : Q) : x == 0 -> RN x = 0.
Proof.
  intros H. unfold RN. destruct (Qcompare_spec x 0); try lra; reflexivity.
Qed.

Lemma round_pos_nonneg (x : Q) : 0 < x -> 0 <= round_pos x.
Proof.
  intros Hx.
  pose proof (grid_le_round_pos x 0 (fexp (ilog2 x + 1)) Hx (Z.le_refl _)) as H.
  change (inject_Z 0) with 0 in H. lra.
Qed.

Lemma RN_nonneg (x : Q) : 0 <= x -> 0 <= RN x.
Proof.
  intros Hx. destruct (Qlt_le_dec 0 x) as [H|H].
  - rewrite RN_pos by assumption. now apply round_pos_nonneg.
  - rewrite RN_0 by lra. lra.
Qed.

(** Rounding is monotone. *)
Lemma RN_mono (x y : Q) : 0 <= x -> x <= y -> RN x <= RN y.
Proof.
  intros Hx Hxy. destruct (Qlt_le_dec 0 x) as [H|H].
  - rewrite !RN_pos by lra. now apply round_pos_mono.
  - rewrite (RN_0 x) by lra. apply RN_nonneg. lra.
Qed.

Lemma RN_compat (x y : Q) : 0 <= x -> x == y -> RN x == RN y.
Proof.
  intros Hx E. apply Qle_antisym; apply RN_mono; lra.
Qed.

(** Rounding does not go past an integer below [2^52]. *)
Lemma RN_le_int (x : Q) (N : Z) :
  0 <= x -> (N <= 2 ^ 52)%Z -> x <= inject_Z N -> RN x <= inject_Z N.
Proof.
  intros Hx HN Hle. destruct (Qlt_le_dec 0 x) as [H|H].
  - rewrite RN_pos by assumption.
    assert (E : inject_Z N * 2 ^ 0 == inject_Z N) by (simpl; ring).
    rewrite <- E. apply round_pos_le_grid; [assumption | | lra].
    assert (Hl : (ilog2 x <= 52)%Z).
    { apply ilog2_le; [assumption|].
      rewrite <- pow2_Z by lia. rewrite Zle_Qle in HN. lra. }
    unfold fexp, prec, emin. lia.
  - rewrite RN_0 by lra. lra.
Qed.

Lemma of_int_100 : of_int 100 == 100.
Proof. now vm_compute. Qed.

Lemma RN_1 : RN 1 == 1.
Proof. now vm_compute. Qed.

Lemma RN_100 : RN 100 == 100.
Proof. now vm_compute. Qed.

End Float64Facts.

(** The rational model and the IEEE 754 specification compute the same
    percentage. *)

Example binary64_validation_small :
  forallb (fun total => forallb (fun passed => agrees_with_binary64 passed (total + 1))
                                (range (Z.to_nat total + 2)))
          (range 40) = true.
Proof. vm_compute. reflexivity. Qed.

Example binary64_validation_large :
  forallb (fun '(passed, total) => agrees_with_binary64 passed total)
          [(33, 50); (65, 100); (66, 100); (67, 100); (329, 500); (2, 3);
           (999999, 1000000); (659999, 1000000); (660001, 1000000);
           (12345678, 87654321); (9007199254740991, 9007199254740992);
           (9007199254740992, 9007199254740993);
           (18014398509481983, 18014398509481984);
           (1, 36028797018963968); (36028797018963967, 36028797018963968);
           (760924038640382103, 1152921504606846976)]%Z = true.
Proof. vm_compute. reflexivity. Qed.

(** Beyond [2^54] checks the quotient of [total - 1] by [total] rounds to 1:
    the percentage is 100.0 although one check failed. *)
Example rounding_hides_one_failure :
  Qeq_bool (Float64.mul (Float64.int_truediv (2 ^ 54 - 1) (2 ^ 54)) (Float64.of_int 100))
           100 = true.
Proof. vm_compute. reflexivity. Qed.

(** ** Facts about percentages *)

Section PercentageFacts.

Import Float64 Float64Facts.
Local Open Scope Q_scope.

Lemma ratio_range (p t : nat) :
  (0 < t)%nat -> (p <= t)%nat ->
  0 <= inject_Z (Z.of_nat p) / inject_Z (Z.of_nat t) <= 1.
Proof.
  intros Ht Hp.
  assert (H0 : 0 < inject_Z (Z.of_nat t)).
  { change 0 with (inject_Z 0). rewrite <- Zlt_Qlt. lia. }
  assert (H1 : 0 <= inject_Z (Z.of_nat p)).
  { change 0 with (inject_Z 0). rewrite <- Zle_Qle. lia. }
  assert (H2 : inject_Z (Z.of_nat p) <= inject_Z (Z.of_nat t)).
  { rewrite <- Zle_Qle. lia. }
  split.
  - apply Qle_shift_div_l; lra.
  - apply Qle_shift_div_r; lra.
Qed.

Lemma int_truediv_range (p t : nat) :
  (0 < t)%nat -> (p <= t)%nat ->
  0 <= int_truediv (Z.of_nat p) (Z.of_nat t) <= 1.
Proof.
  intros Ht Hp. destruct (ratio_range p t Ht Hp) as [H0 H1].
  unfold int_truediv. split.
  - now apply RN_nonneg.
  - change 1 with (inject_Z 1). apply RN_le_int; [assumption | lia | exact H1].
Qed.

Lemma int_truediv_mono (p p' t : nat) :
  (0 < t)%nat -> (p <= p')%nat ->
  int_truediv (Z.of_nat p) (Z.of_nat t) <= int_truediv (Z.of_nat p') (Z.of_nat t).
Proof.
  intros Ht Hp.
  assert (H0 : 0 < inject_Z (Z.of_nat t)).
  { change 0 with (inject_Z 0). rewrite <- Zlt_Qlt. lia. }
  assert (H1 : 0 <= inject_Z (Z.of_nat p)).
  { change 0 with (inject_Z 0). rewrite <- Zle_Qle. lia. }
  assert (H2 : inject_Z (Z.of_nat p) <= inject_Z (Z.of_nat p')).
  { rewrite <- Zle_Qle. lia. }
  unfold int_truediv. apply RN_mono.
  - apply Qle_shift_div_l; lra.
  - unfold Qdiv. apply Qmult_le_compat_r; [assumption|].
    apply Qlt_le_weak, Qinv_lt_0_compat, H0.
Qed.

(** A percentage lies between 0 and 100. *)
Lemma percentage_of_range (p t : nat) :
  (p <= t)%nat -> 0 <= percentage_of p t <= 100.
Proof.
  intros Hp. unfold percentage_of.
  destruct (Nat.ltb_spec 0 t) as [Ht|Ht]; [|lra].
  destruct (int_truediv_range p t Ht Hp) as [H0 H1].
  pose proof of_int_100 as E.
  unfold mul. split.
  - apply RN_nonneg. nra.
  - change 100 with (inject_Z 100). apply RN_le_int; [nra | lia |].
    change (inject_Z 100) with 100. nra.
Qed.

(** A percentage grows with the number of passed checks. *)
Lemma percentage_of_mono (p p' t : nat) :
  (p <= p')%nat -> percentage_of p t <= percentage_of p' t.
Proof.
  intros Hp. unfold percentage_of.
  destruct (Nat.ltb_spec 0 t) as [Ht|Ht]; [|lra].
  pose proof (int_truediv_mono p p' t Ht Hp) as Hm.
  assert (H0 : 0 <= int_truediv (Z.of_nat p) (Z.of_nat t)).
  { unfold int_truediv. apply RN_nonneg.
    assert (H : 0 < inject_Z (Z.of_nat t)).
    { change 0 with (inject_Z 0). rewrite <- Zlt_Qlt. lia. }
    apply Qle_shift_div_l; [lra|].
    assert (0 <= inject_Z (Z.of_nat p)).
    { change 0 with (inject_Z 0). rewrite <- Zle_Qle. lia. }
    lra. }
  pose proof of_int_100 as E.
  unfold mul. apply RN_mono; nra.
Qed.

(** All checks passed is exactly 100.0. *)
Lemma percentage_of_full (t : nat) : (0 < t)%nat -> percentage_of t t == 100.
Proof.
  intros Ht. unfold percentage_of.
  destruct (Nat.ltb_spec 0 t) as [_|C]; [|lia].
  assert (H0 : 0 < inject_Z (Z.of_nat t)).
  { change 0 with (inject_Z 0). rewrite <- Zlt_Qlt. lia. }
  assert (E1 : int_truediv (Z.of_nat t) (Z.of_nat t) == 1).
  { unfold int_truediv. rewrite <- RN_1. apply RN_compat.
    - apply Qle_shift_div_l; lra.
    - field. lra. }
  unfold mul. apply Qeq_trans with (RN 100); [|apply RN_100].
  apply RN_compat.
  - rewrite E1, of_int_100. lra.
  - rewrite E1, of_int_100. ring.
Qed.

Lemma RN_below_100 : RN ((9007199254740991 # 9007199254740992) * 100) < 100.
Proof. now vm_compute. Qed.

(** One failed check keeps the percentage strictly below 100, for every list
    of at most [2^53] checks. *)
Lemma percentage_of_lt_100 (p t : nat) :
  (p < t)%nat -> (Z.of_nat t <= 2 ^ 53)%Z -> percentage_of p t < 100.
Proof.
  intros Hp Ht. unfold percentage_of.
  destruct (Nat.ltb_spec 0 t) as [Hpos|C]; [|lia].
  set (c := 9007199254740991 # 9007199254740992).
  assert (H0 : 0 < inject_Z (Z.of_nat t)).
  { change 0 with (inject_Z 0). rewrite <- Zlt_Qlt. lia. }
  assert (H1 : 0 <= inject_Z (Z.of_nat p)).
  { change 0 with (inject_Z 0). rewrite <- Zle_Qle. lia. }
  assert (Hx : inject_Z (Z.of_nat p) / inject_Z (Z.of_nat t) <= c).
  { apply Qle_shift_div_r; [assumption|].
    assert (HZ : (Z.of_nat p * 9007199254740992
                  <= 9007199254740991 * Z.of_nat t)%Z)
      by (change (2 ^ 53)%Z with 9007199254740992%Z in Ht; lia).
    rewrite Zle_Qle, !inject_Z_mult in HZ. unfold c.
    unfold inject_Z at 2 3 in HZ. lra. }
  assert (Hx0 : 0 <= inject_Z (Z.of_nat p) / inject_Z (Z.of_nat t)).
  { apply Qle_shift_div_l; lra. }
  assert (Hr : int_truediv (Z.of_nat p) (Z.of_nat t) <= c).
  { unfold int_truediv.
    destruct (Qlt_le_dec 0 (inject_Z (Z.of_nat p) / inject_Z (Z.of_nat t))) as [Hgt|Hle].
    - rewrite RN_pos by assumption.
      assert (Ec : inject_Z 9007199254740991 * 2 ^ (-53) == c) by now vm_compute.
      rewrite <- Ec. apply round_pos_le_grid; [assumption | | now rewrite Ec].
      assert (Hl : (ilog2 (inject_Z (Z.of_nat p) / inject_Z (Z.of_nat t)) < 0)%Z).
      { destruct (ilog2_spec _ Hgt) as [Hlo _].
        apply pow2_lt_inv. change (2 ^ 0) with 1.
        eapply Qle_lt_trans; [exact Hlo|].
        eapply Qle_lt_trans; [exact Hx|]. now vm_compute. }
      unfold fexp, prec, emin. lia.
    - rewrite RN_0 by lra. now vm_compute. }
  assert (Hr0 : 0 <= int_truediv (Z.of_nat p) (Z.of_nat t)).
  { unfold int_truediv. now apply RN_nonneg. }
  pose proof of_int_100 as E.
  unfold mul. eapply Qle_lt_trans; [|exact RN_below_100].
  apply RN_mono; [nra|]. fold c. nra.
Qed.

End PercentageFacts.

(** ** The report aggregator *)

Section ReportFacts.

Import Float64 Float64Facts.
Local Open Scope Q_scope.

Lemma lt_int_spec (x : float) (n : Z) : lt_int x n = true <-> x < inject_Z n.
Proof.
  unfold lt_int. rewrite negb_true_iff.
  destruct (Qle_bool (inject_Z n) x) eqn:E.
  - apply Qle_bool_iff in E. split; [discriminate | lra].
  - split; [intros _ | reflexivity].
    apply Qnot_le_lt. intros C. apply Qle_bool_iff in C. congruence.
Qed.

Lemma lt_int_false (x : float) (n : Z) : lt_int x n = false <-> inject_Z n <= x.
Proof.
  unfold lt_int. rewrite negb_false_iff. apply Qle_bool_iff.
Qed.

Lemma passed_of_count (checks : list ComplianceCheck) :
  passed_of checks = count_occ bool_dec (map status checks) true.
Proof.
  unfold passed_of. induction checks as [|c cs IH]; [reflexivity|].
  simpl. destruct (status c); simpl.
  - now rewrite IH.
  - exact IH.
Qed.

Lemma passed_of_le_length (checks : list ComplianceCheck) :
  (passed_of checks <= length checks)%nat.
Proof.
  unfold passed_of. induction checks as [|c cs IH]; [apply Nat.le_refl|].
  simpl. destruct (status c); simpl; lia.
Qed.

Lemma get_level_score_Bronze (r : ComplianceReport) :
  get_level_score r "Bronze" = inr (score_of (bronze_checks r)).
Proof. reflexivity. Qed.

Lemma get_level_score_Silver (r : ComplianceReport) :
  get_level_score r "Silver" = inr (score_of (silver_checks r)).
Proof. reflexivity. Qed.

Lemma get_level_score_Gold (r : ComplianceReport) :
  get_level_score r "Gold" = inr (score_of (gold_checks r)).
Proof. reflexivity. Qed.

Lemma get_level_score_Platinum (r : ComplianceReport) :
  get_level_score r "Platinum" = inr (score_of (platinum_checks r)).
Proof. reflexivity. Qed.

Lemma get_overall_level_unfold (r : ComplianceReport) :
  get_overall_level r =
  inr (if lt_int (pct (bronze_checks r)) 100 then "Non-compliant"
       else if lt_int (pct (silver_checks r)) 100 then "Bronze"
       else if lt_int (pct (gold_checks r)) 66 then "Silver"
       else if lt_int (pct (platinum_checks r)) 66 then "Gold"
       else "Platinum").
Proof.
  unfold get_overall_level.
  rewrite get_level_score_Bronze, get_level_score_Silver,
    get_level_score_Gold, get_level_score_Platinum.
  unfold score_of, pct. cbn [bind ret Monad_either].
  repeat destruct (lt_int _ _); reflexivity.
Qed.

Lemma get_overall_level_gate (r : ComplianceReport) :
  get_overall_level r =
  inr (gate_table (pct (bronze_checks r)) (pct (silver_checks r))
                  (pct (gold_checks r)) (pct (platinum_checks r))).
Proof.
  rewrite get_overall_level_unfold. unfold gate_table.
  repeat match goal with
  | |- context [lt_int ?x ?n] =>
      let E := fresh "E" in
      destruct (lt_int x n) eqn:E;
      [apply lt_int_spec in E | apply lt_int_false in E]
  end;
  repeat match goal with
  | |- context [Qlt_le_dec ?x ?y] => destruct (Qlt_le_dec x y)
  end;
  try reflexivity; unfold inject_Z in *; exfalso; lra.
Qed.

Lemma pct_range (checks : list ComplianceCheck) : 0 <= pct checks <= 100.
Proof. apply percentage_of_range, passed_of_le_length. Qed.

End ReportFacts.

(** ** Properties of the report aggregator *)

Section ReportProperties.

Import Float64 Float64Facts.
Local Open Scope Q_scope.

Lemma snd_score_of (checks : list ComplianceCheck) : snd (score_of checks) = pct checks.
Proof. reflexivity. Qed.

(** C1: [get_overall_level] follows the gate table on the four percentages of
    [get_level_score]: "Non-compliant" whenever the Bronze percentage is below
    100, and "Platinum" exactly when Bronze and Silver are at 100 and Gold and
    Platinum are at 66 or more. *)
Theorem get_overall_level_gate_table (r : ComplianceReport) :
  exists bronze silver gold platinum : nat * nat * float,
    get_level_score r "Bronze" = inr bronze /\
    get_level_score r "Silver" = inr silver /\
    get_level_score r "Gold" = inr gold /\
    get_level_score r "Platinum" = inr platinum /\
    get_overall_level r =
      inr (gate_table (snd bronze) (snd silver) (snd gold) (snd platinum)) /\
    (snd bronze < 100 -> get_overall_level r = inr "Non-compliant") /\
    (get_overall_level r = inr "Platinum" <->
     snd bronze == 100 /\ snd silver == 100 /\ 66 <= snd gold /\ 66 <= snd platinum).
Proof.
  exists (score_of (bronze_checks r)), (score_of (silver_checks r)),
         (score_of (gold_checks r)), (score_of (platinum_checks r)).
  rewrite !snd_score_of.
  repeat split; try reflexivity; try apply get_overall_level_gate.
  - intros Hb. rewrite get_overall_level_gate. unfold gate_table.
    destruct (Qlt_le_dec _ _); [reflexivity | lra].
  - rewrite get_overall_level_gate in H. unfold gate_table in H.
    pose proof (pct_range (bronze_checks r)).
    destruct (Qlt_le_dec (pct (bronze_checks r)) 100); [discriminate | lra].
  - rewrite get_overall_level_gate in H. unfold gate_table in H.
    pose proof (pct_range (silver_checks r)).
    destruct (Qlt_le_dec (pct (bronze_checks r)) 100); [discriminate|].
    destruct (Qlt_le_dec (pct (silver_checks r)) 100); [discriminate | lra].
  - rewrite get_overall_level_gate in H. unfold gate_table in H.
    repeat match type of H with
    | context [Qlt_le_dec ?x ?y] => destruct (Qlt_le_dec x y); try discriminate
    end. assumption.
  - rewrite get_overall_level_gate in H. unfold gate_table in H.
    repeat match type of H with
    | context [Qlt_le_dec ?x ?y] => destruct (Qlt_le_dec x y); try discriminate
    end. assumption.
  - intros (Hb & Hs & Hg & Hp). rewrite get_overall_level_gate. unfold gate_table.
    repeat match goal with
    | |- context [Qlt_le_dec ?x ?y] => destruct (Qlt_le_dec x y); try lra
    end. reflexivity.
Qed.

Lemma score_of_statuses (l1 l2 : list ComplianceCheck) :
  Permutation (map status l1) (map status l2) -> score_of l1 = score_of l2.
Proof.
  intros HP. unfold score_of.
  assert (Hc : passed_of l1 = passed_of l2).
  { rewrite !passed_of_count. now apply Permutation_count_occ. }
  assert (Hl : length l1 = length l2).
  { apply Permutation_length in HP. now rewrite !length_map in HP. }
  now rewrite Hc, Hl.
Qed.

Lemma get_level_score_getattr (r : ComplianceReport) (level : string) :
  get_level_score r level =
  match getattr r (lower level ++ "_checks") with
  | inr checks => inr (score_of checks)
  | inl e => inl e
  end.
Proof.
  unfold get_level_score. cbn [bind ret Monad_either].
  destruct (getattr _ _); reflexivity.
Qed.

(** C9: two reports whose levels hold the same statuses, in any order and
    whatever their [required] and [weight] fields, get the same scores and the
    same overall level. *)
Theorem scoring_reads_only_statuses (r1 r2 : ComplianceReport) :
  Permutation (map status (bronze_checks r1)) (map status (bronze_checks r2)) ->
  Permutation (map status (silver_checks r1)) (map status (silver_checks r2)) ->
  Permutation (map status (gold_checks r1)) (map status (gold_checks r2)) ->
  Permutation (map status (platinum_checks r1)) (map status (platinum_checks r2)) ->
  (forall level : string, get_level_score r1 level = get_level_score r2 level) /\
  get_overall_level r1 = get_overall_level r2.
Proof.
  intros Hb Hs Hg Hp.
  apply score_of_statuses in Hb, Hs, Hg, Hp.
  split.
  - intros lvl. rewrite !get_level_score_getattr. unfold getattr.
    repeat match goal with
    | |- context [String.eqb ?a ?b] => destruct (String.eqb a b)
    end; cbn [ret raise Monad_either Exception_either]; congruence.
  - rewrite !get_overall_level_unfold. unfold pct.
    unfold score_of in Hb, Hs, Hg, Hp.
    injection Hb as Hb1 Hb2 Hb3. injection Hs as Hs1 Hs2 Hs3.
    injection Hg as Hg1 Hg2 Hg3. injection Hp as Hp1 Hp2 Hp3.
    now rewrite Hb1, Hb2, Hs1, Hs2, Hg1, Hg2, Hp1, Hp2.
Qed.

Lemma scoring_reads_only_statuses_witness :
  (forall level : string,
      get_level_score sample_report level = get_level_score shuffled_report level) /\
  get_overall_level sample_report = get_overall_level shuffled_report.
Proof.
  apply (scoring_reads_only_statuses sample_report shuffled_report).
  - apply perm_swap.
  - apply perm_swap.
  - apply Permutation_refl.
  - apply Permutation_refl.
Defined.

Lemma flips_check_score (l l' : list ComplianceCheck) :
  flips_check l l' -> length l' = length l /\ passed_of l' = S (passed_of l).
Proof.
  induction 1 as [c rest Hc | c l l' _ [IHl IHp]].
  - split; [reflexivity|]. unfold passed_of. simpl. now rewrite Hc.
  - split; [simpl; now rewrite IHl|].
    unfold passed_of in *. simpl. destruct (status c); simpl; now rewrite IHp.
Qed.

Lemma flips_check_pct (l l' : list ComplianceCheck) :
  flips_check l l' -> pct l <= pct l'.
Proof.
  intros H. destruct (flips_check_score l l' H) as [Hl Hp].
  unfold pct. rewrite Hl, Hp. apply percentage_of_mono. lia.
Qed.

(** The gate table is monotone in each percentage. *)
Lemma gate_table_mono (b s g p b' s' g' p' : Q) :
  b <= b' -> s <= s' -> g <= g' -> p <= p' ->
  (level_rank (gate_table b s g p) <= level_rank (gate_table b' s' g' p'))%nat.
Proof.
  intros Hb Hs Hg Hp. unfold gate_table.
  repeat match goal with
  | |- context [Qlt_le_dec ?x ?y] => destruct (Qlt_le_dec x y)
  end; try (exfalso; lra); cbn; lia.
Qed.

(** C10: turning one failed check into a passed one never lowers the overall
    level, in the order Non-compliant < Bronze < Silver < Gold < Platinum. *)
Theorem get_overall_level_monotone (r r' : ComplianceReport) :
  flips_one r r' ->
  exists before after : string,
    get_overall_level r = inr before /\
    get_overall_level r' = inr after /\
    (level_rank before <= level_rank after)%nat.
Proof.
  intros H. rewrite !get_overall_level_gate.
  eexists _, _. split; [reflexivity|]. split; [reflexivity|].
  destruct H as [H ? ? ? | ? H ? ? | ? ? H ? | ? ? ? H];
    apply flips_check_pct in H;
    apply gate_table_mono;
    repeat match goal with E : _ = _ |- _ => rewrite E; clear E end;
    assumption || apply Qle_refl.
Qed.

Lemma get_overall_level_monotone_witness :
  exists before after : string,
    get_overall_level sample_report = inr before /\
    get_overall_level flipped_report = inr after /\
    (level_rank before <= level_rank after)%nat.
Proof.
  apply (get_overall_level_monotone sample_report flipped_report).
  apply flips_silver; try reflexivity.
  apply flips_later. apply (flips_here (sample_check "Nix flakes" "Silver" false)).
  reflexivity.
Defined.

Lemma passed_of_cons (c : ComplianceCheck) (cs : list ComplianceCheck) :
  passed_of (c :: cs) = ((if status c then 1 else 0) + passed_of cs)%nat.
Proof. unfold passed_of. cbn [filter]. destruct (status c); reflexivity. Qed.

Lemma passed_of_all (l : list ComplianceCheck) :
  forallb status l = true -> passed_of l = length l.
Proof.
  induction l as [|c cs IH]; [reflexivity|].
  cbn [forallb]. intros H. apply andb_true_iff in H. destruct H as [Hc Hcs].
  rewrite passed_of_cons, Hc, (IH Hcs). reflexivity.
Qed.

Lemma passed_of_some_failed (l : list ComplianceCheck) :
  forallb status l = false -> (passed_of l < length l)%nat.
Proof.
  induction l as [|c cs IH]; [discriminate|].
  cbn [forallb]. intros H. rewrite passed_of_cons. cbn [length].
  pose proof (passed_of_le_length cs) as Hle.
  destruct (status c); cbn in H; [specialize (IH H)|]; lia.
Qed.

Lemma pct_nil : pct [] = 0.
Proof. reflexivity. Qed.

(** A report whose Bronze checks all pass and whose other levels are empty is
    at level "Bronze". *)
Lemma all_bronze_only (bronze : list ComplianceCheck) :
  bronze <> [] -> forallb status bronze = true ->
  get_overall_level {| bronze_checks := bronze; silver_checks := [];
                       gold_checks := []; platinum_checks := [] |} = inr "Bronze".
Proof.
  intros Hne Hall. rewrite get_overall_level_gate. cbn [bronze_checks silver_checks
    gold_checks platinum_checks].
  assert (Hb : pct bronze == 100).
  { unfold pct. rewrite (passed_of_all bronze Hall). apply percentage_of_full.
    destruct bronze; [congruence | cbn; lia]. }
  unfold gate_table. rewrite pct_nil.
  destruct (Qlt_le_dec (pct bronze) 100); [lra|].
  destruct (Qlt_le_dec 0 100) as [_|C]; [reflexivity | lra].
Qed.

(** With at most [2^53] Bronze checks, the level is "Non-compliant" exactly
    when a Bronze check fails or there is none. *)
Lemma non_compliant_iff (r : ComplianceReport) :
  (Z.of_nat (length (bronze_checks r)) <= 2 ^ 53)%Z ->
  (get_overall_level r = inr "Non-compliant" <->
   bronze_checks r = [] \/ forallb status (bronze_checks r) = false).
Proof.
  intros Hlen. rewrite get_overall_level_gate. unfold gate_table.
  set (l := bronze_checks r) in *.
  assert (Hcases : l = [] \/ (l <> [] /\ forallb status l = true)
                   \/ forallb status l = false).
  { destruct l; [now left | right].
    destruct (forallb status (c :: l)); [left; split; [discriminate | reflexivity] | now right]. }
  pose proof (passed_of_some_failed l) as Hfail.
  destruct Hcases as [E | [[Hne Hall] | Hf]].
  - rewrite E, pct_nil. split; [now left|]. intros _.
    destruct (Qlt_le_dec 0 100) as [_|C]; [reflexivity | lra].
  - assert (Hb : pct l == 100).
    { unfold pct. rewrite (passed_of_all l Hall). apply percentage_of_full.
      destruct l; [congruence | cbn; lia]. }
    destruct (Qlt_le_dec (pct l) 100); [lra|].
    split.
    + repeat match goal with
      | |- context [Qlt_le_dec ?x ?y] => destruct (Qlt_le_dec x y)
      end; discriminate.
    + intros [E|E]; congruence.
  - pose proof (percentage_of_lt_100 _ _ (Hfail Hf) Hlen) as Hlt. fold (pct l) in Hlt.
    destruct (Qlt_le_dec (pct l) 100); [|lra].
    split; [now right | reflexivity].
Qed.

End ReportProperties.

(** ** The predicate library *)

Section PredicateProperties.

Variable fs : node.
Variable re_search : string -> string -> result bool.

Lemma find_missing_well_formed (content : string) (patterns acc : list string) :
  well_formed re_search content patterns ->
  find_missing re_search content patterns acc =
  inr (acc ++ missing_patterns re_search content patterns)%list.
Proof.
  intros H. revert acc. induction H as [|p ps [found Hp] _ IH]; intros acc.
  - simpl. now rewrite app_nil_r.
  - cbn [find_missing missing_patterns filter]. unfold matches at 1.
    rewrite Hp. cbn [bind ret Monad_either]. rewrite IH.
    destruct found; cbn [negb].
    + reflexivity.
    + now rewrite <- app_assoc.
Qed.

Lemma missing_patterns_nil (content : string) (patterns : list string) :
  well_formed re_search content patterns ->
  missing_patterns re_search content patterns = [] <->
  Forall (fun pattern => re_search pattern content = inr true) patterns.
Proof.
  induction 1 as [|p ps [found Hp] _ IH].
  - split; constructor.
  - cbn [missing_patterns filter]. unfold matches at 1. rewrite Hp.
    destruct found; cbn [negb].
    + rewrite IH. split; [now constructor | now inversion 1].
    + split; [discriminate|]. inversion 1. congruence.
Qed.

Lemma check_file_content_readable (self : RSRChecker) (path content : string)
      (lenient : result string) (patterns : list string) :
  lookup fs self path = Some (File (inr content) lenient) ->
  check_file_content fs re_search self path patterns =
  match find_missing re_search content patterns [] with
  | inr [] => inr (true, "All required content present")
  | inr missing => inr (false, "Missing patterns: " ++ join ", " (firstn 3 missing))
  | inl e => inr (false, "Error reading file: " ++ str_exn e)
  end.
Proof.
  intros H. unfold check_file_content, check_file_exists, read_text. rewrite H.
  cbn [negb bind ret catch Monad_either Exception_either].
  destruct (find_missing _ _ _ _) as [e|[|m ms]]; reflexivity.
Qed.

Lemma find_missing_nil (content : string) (patterns acc : list string) :
  find_missing re_search content patterns acc = inr [] ->
  acc = [] /\ Forall (fun pattern => re_search pattern content = inr true) patterns.
Proof.
  revert acc. induction patterns as [|p ps IH]; intros acc H.
  - cbn in H. injection H as ->. split; [reflexivity | constructor].
  - cbn [find_missing] in H.
    destruct (re_search p content) as [e|found] eqn:Hp;
      cbn [bind ret Monad_either] in H; [discriminate|].
    apply IH in H. destruct H as [Hacc Hps].
    destruct found; cbn [negb] in Hacc.
    + split; [exact Hacc | now constructor].
    + now destruct acc.
Qed.

Lemma all_found_well_formed (content : string) (patterns : list string) :
  Forall (fun pattern => re_search pattern content = inr true) patterns ->
  well_formed re_search content patterns.
Proof.
  unfold well_formed. apply Forall_impl. intros p Hp. now exists true.
Qed.

Lemma find_missing_raises (content : string) (pre post : list string) (p : string)
      (e : exn) (acc : list string) :
  well_formed re_search content pre -> re_search p content = inl e ->
  find_missing re_search content (pre ++ p :: post) acc = inl e.
Proof.
  intros Hw Hp. revert acc. induction Hw as [|q qs [found Hq] _ IH]; intros acc.
  - cbn [app find_missing]. rewrite Hp. reflexivity.
  - cbn [app find_missing]. rewrite Hq. cbn [bind ret Monad_either]. apply IH.
Qed.

(** C3: on a readable file, [check_file_content] passes exactly when every
    pattern is found.  When the patterns are well-formed and some are
    missing, it fails with the first three missing patterns, joined by a
    comma and a space, so that two missing patterns of four are both listed
    and nothing else.  When the search of a pattern raises, after patterns
    whose searches returned, it fails with "Error reading file: " and the
    error text, and lists no pattern. *)
Theorem check_file_content_patterns (self : RSRChecker) (path content : string)
        (lenient : result string) (patterns : list string) :
  lookup fs self path = Some (File (inr content) lenient) ->
  ((exists detail, check_file_content fs re_search self path patterns = inr (true, detail))
   <-> Forall (fun pattern => re_search pattern content = inr true) patterns) /\
  (well_formed re_search content patterns ->
   check_file_content fs re_search self path patterns =
     inr (match missing_patterns re_search content patterns with
          | [] => (true, "All required content present")
          | missing => (false, "Missing patterns: " ++ join ", " (firstn 3 missing))
          end) /\
   forall a b : string,
     length patterns = 4%nat ->
     missing_patterns re_search content patterns = [a; b] ->
     check_file_content fs re_search self path patterns =
     inr (false, "Missing patterns: " ++ a ++ ", " ++ b)) /\
  (forall (pre post : list string) (p : string) (e : exn),
      patterns = (pre ++ p :: post)%list ->
      well_formed re_search content pre -> re_search p content = inl e ->
      check_file_content fs re_search self path patterns =
      inr (false, "Error reading file: " ++ str_exn e)).
Proof.
  intros Hf.
  pose proof (check_file_content_readable self path content lenient patterns Hf) as E.
  split; [|split].
  - split.
    + intros [detail Hd]. rewrite E in Hd.
      destruct (find_missing re_search content patterns []) as [e|[|m ms]] eqn:Hm;
        try discriminate.
      now apply find_missing_nil in Hm.
    + intros Hall. rewrite E.
      rewrite (find_missing_well_formed content patterns []
                 (all_found_well_formed content patterns Hall)).
      apply (missing_patterns_nil content patterns
               (all_found_well_formed content patterns Hall)) in Hall.
      rewrite Hall. eexists. reflexivity.
  - intros Hw. rewrite (find_missing_well_formed content patterns [] Hw) in E.
    cbn [app] in E.
    assert (E' : check_file_content fs re_search self path patterns =
                 inr (match missing_patterns re_search content patterns with
                      | [] => (true, "All required content present")
                      | missing =>
                          (false, "Missing patterns: " ++ join ", " (firstn 3 missing))
                      end)).
    { rewrite E. destruct (missing_patterns _ _ _); reflexivity. }
    split; [exact E'|].
    intros a b _ Hm. rewrite E', Hm. reflexivity.
  - intros pre post p e -> Hw Hp. rewrite E.
    now rewrite (find_missing_raises content pre post p e [] Hw Hp).
Qed.

Lemma find_missing_total (content : string) (patterns acc : list string) :
  (exists missing, find_missing re_search content patterns acc = inr missing) \/
  (exists e, find_missing re_search content patterns acc = inl e).
Proof.
  destruct (find_missing _ _ _ _) as [e|m]; [right | left]; eexists; reflexivity.
Qed.

Lemma stat_from_walk (parts : list string) (anc : list node) (cur : node) :
  match stat_from anc cur parts with
  | inr n => walk anc cur parts = Some n
  | inl ENOENT => walk anc cur parts = None
  | inl ENOTDIR => walk anc cur parts = None
  | inl _ => True
  end.
Proof.
  revert anc cur. induction parts as [|c rest IH]; intros anc cur; [reflexivity|].
  cbn [stat_from walk]. destruct cur as [strict lenient|entries]; [reflexivity|].
  destruct (c =? "..").
  - destruct anc as [|parent anc']; apply IH.
  - destruct (NAME_MAX <? String.length c)%nat; [exact I|].
    destruct (assoc c entries) as [child|]; [apply IH | reflexivity].
Qed.

(** When the existence test returns, it returns what the path resolution of
    the model finds. *)
Lemma path_exists_check_file_exists (self : RSRChecker) (path : string) (found : bool) :
  path_exists fs (joinpath (repo_path self) path) = inr found ->
  check_file_exists fs self path = found.
Proof.
  unfold path_exists, stat, check_file_exists, lookup.
  destruct (PATH_MAX <=? _)%nat; [discriminate|].
  pose proof (stat_from_walk (joinpath (repo_path self) path) [] fs) as H.
  destruct (stat_from [] fs (joinpath (repo_path self) path)) as [[| | |]|n];
    try discriminate; rewrite H; intros E; now injection E.
Qed.

Lemma check_file_content_os_returns (self : RSRChecker) (path : string)
      (patterns : list string) (found : bool) :
  path_exists fs (joinpath (repo_path self) path) = inr found ->
  check_file_content_os fs re_search self path patterns =
  check_file_content fs re_search self path patterns.
Proof.
  intros H. unfold check_file_content_os, check_file_content.
  rewrite (path_exists_check_file_exists self path found H), H. reflexivity.
Qed.

(** C4: once the existence test has returned, [check_file_content] returns
    and no exception leaves it.  An absent file gives false with the detail
    "File <path> not found"; a file whose read raises, or a pattern whose
    search raises, gives false with the detail "Error reading file: "
    followed by the error text. *)
Theorem check_file_content_errors (self : RSRChecker) (path : string)
        (patterns : list string) :
  (forall found : bool,
      path_exists fs (joinpath (repo_path self) path) = inr found ->
      exists (ok : bool) (detail : string),
        check_file_content_os fs re_search self path patterns = inr (ok, detail)) /\
  (path_exists fs (joinpath (repo_path self) path) = inr false ->
   check_file_content_os fs re_search self path patterns =
   inr (false, "File " ++ path ++ " not found")) /\
  (forall e : exn,
      path_exists fs (joinpath (repo_path self) path) = inr true ->
      read_text fs self path = inl e ->
      check_file_content_os fs re_search self path patterns =
      inr (false, "Error reading file: " ++ str_exn e)) /\
  (forall (content : string) (e : exn),
      path_exists fs (joinpath (repo_path self) path) = inr true ->
      read_text fs self path = inr content ->
      find_missing re_search content patterns [] = inl e ->
      check_file_content_os fs re_search self path patterns =
      inr (false, "Error reading file: " ++ str_exn e)).
Proof.
  unfold check_file_content_os.
  split; [|split; [|split]].
  - intros found ->. destruct found;
      cbn [negb bind ret catch Monad_either Exception_either].
    + destruct (read_text fs self path) as [e|content]; [eauto|].
      destruct (find_missing re_search content patterns []) as [e|[|m ms]]; eauto.
    + eauto.
  - intros ->. reflexivity.
  - intros e -> He.
    cbn [negb bind ret catch Monad_either Exception_either]. now rewrite He.
  - intros content e -> Hc He.
    cbn [negb bind ret catch Monad_either Exception_either]. now rewrite Hc, He.
Qed.

End PredicateProperties.

Lemma check_file_content_patterns_witness :
  check_file_content sample_fs literal_re_search sample_checker "README.md"
                     ["Installation"; "Usage"; "Features"; "License"] =
  inr (false, "Missing patterns: Usage, Features").
Proof.
  refine (proj2 (proj1 (proj2 (check_file_content_patterns
                                 sample_fs literal_re_search sample_checker "README.md"
                                 "Demo project Installation steps and License terms"
                                 (inr "Demo project Installation steps and License terms")
                                 ["Installation"; "Usage"; "Features"; "License"]
                                 eq_refl)) _) "Usage" "Features" eq_refl eq_refl).
  repeat constructor; eexists; reflexivity.
Defined.

(** A lone opening parenthesis among the patterns: "Usage" is missing from
    the file, and the detail is the error text of the regex, which names no
    pattern. *)
Lemma check_file_content_ill_formed_pattern :
  lookup sample_fs sample_checker "README.md" =
    Some (File (inr "Demo project Installation steps and License terms")
               (inr "Demo project Installation steps and License terms")) /\
  paren_re_search "Usage" "Demo project Installation steps and License terms" =
    inr false /\
  check_file_content sample_fs paren_re_search sample_checker "README.md"
                     ["Usage"; "("; "Features"] =
    inr (false, "Error reading file: missing ), unterminated subpattern at position 0") /\
  contains "Usage"
           "Error reading file: missing ), unterminated subpattern at position 0" =
    false.
Proof. repeat split. Qed.

(** The detail of an absent file names the path, and the error of the
    existence test on a name of 256 bytes leaves the method. *)
Lemma check_file_content_absent_or_raising :
  check_file_content_os sample_fs literal_re_search sample_checker "SECURITY.md"
                        ["Reporting"] =
    inr (false, "File SECURITY.md not found") /\
  "File SECURITY.md not found" <> "File not found" /\
  String.length long_name = 256%nat /\
  check_file_content_os sample_fs literal_re_search sample_checker long_name
                        ["Reporting"] =
    inl (OSError ("[Errno 36] File name too long: '/repo/" ++ long_name ++ "'")).
Proof. split; [reflexivity | split; [discriminate | split; reflexivity]]. Qed.

(** A file that cannot be decoded is a failed check. *)
Example check_file_content_undecodable :
  check_file_content sample_fs literal_re_search sample_checker "LICENSE"
                     ["MIT"] =
  inr (false, "Error reading file: 'utf-8' codec can't decode byte 0xff in position 0: invalid start byte").
Proof. reflexivity. Qed.

(** ** The Gold formal-verification check *)

(** Induction on a file-system tree, with the hypothesis on every entry of a
    directory. *)
Fixpoint node_nested_ind (P : node -> Prop)
         (HFile : forall strict lenient, P (File strict lenient))
         (HDir : forall entries, Forall (fun entry => P (snd entry)) entries -> P (Dir entries))
         (n : node) {struct n} : P n :=
  match n with
  | File strict lenient => HFile strict lenient
  | Dir entries =>
      HDir entries
           ((fix all (es : list (string * node)) : Forall (fun entry => P (snd entry)) es :=
               match es with
               | [] => Forall_nil _
               | entry :: es' =>
                   Forall_cons entry
                     (match entry return P (snd entry) with
                      | (_, child) => node_nested_ind P HFile HDir child
                      end)
                     (all es')
               end) entries)
  end.

Section GoldProperties.

Lemma prefix_spec (p s : string) : prefix p s = true <-> exists rest, s = p ++ rest.
Proof.
  revert s. induction p as [|c p IH]; intros s.
  - split; [intros _; now exists s | intros _; destruct s; reflexivity].
  - destruct s as [|c' s]; simpl.
    + split; [discriminate | intros [rest H]; discriminate].
    + destruct (ascii_dec c c') as [->|N].
      * rewrite IH. split; intros [rest H]; exists rest; congruence.
      * split; [discriminate | intros [rest H]; congruence].
Qed.

Lemma contains_unfold (sub s : string) :
  contains sub s =
  prefix sub s || match s with
                  | EmptyString => false
                  | String _ s' => contains sub s'
                  end.
Proof. destruct s; reflexivity. Qed.

Lemma contains_spec (sub s : string) : contains sub s = true <-> occurs_in sub s.
Proof.
  split.
  - induction s as [|c s IH]; rewrite contains_unfold; intros H;
      apply orb_true_iff in H; destruct H as [H|H]; try discriminate.
    + apply prefix_spec in H. destruct H as [rest ->]. now exists "", rest.
    + apply prefix_spec in H. destruct H as [rest ->]. now exists "", rest.
    + destruct (IH H) as (a & b & ->). now exists (String c a), b.
  - intros (a & b & ->). induction a as [|c a IH]; rewrite contains_unfold.
    + apply orb_true_iff. left. apply prefix_spec. now exists b.
    + apply orb_true_iff. right. exact IH.
Qed.

Lemma rglob_all_sound (d n : node) : In n (rglob_all d) -> below d n.
Proof.
  revert n. induction d as [s l | entries IH] using node_nested_ind; intros n H.
  - destruct H.
  - cbn [rglob_all] in H. apply in_flat_map in H.
    destruct H as ([k child] & Hin & Hn).
    rewrite Forall_forall in IH. specialize (IH _ Hin). cbn in IH.
    destruct Hn as [<- | Hn].
    + eapply below_child; eassumption.
    + eapply below_deeper; [eassumption | now apply IH].
Qed.

Lemma rglob_all_complete (d n : node) : below d n -> In n (rglob_all d).
Proof.
  induction 1 as [k child entries Hin | k child n entries Hin _ IH];
    cbn [rglob_all]; apply in_flat_map; exists (k, child);
    (split; [assumption|]).
  - now left.
  - now right.
Qed.

Lemma scan_test_files_spec (files : list node) :
  scan_test_files files = true <->
  exists (strict : result string) (content lib : string),
    In (File strict (inr content)) files /\ In lib property_libs /\
    contains lib content = true.
Proof.
  induction files as [|f files IH].
  - split; [discriminate | intros (? & ? & ? & [] & _)].
  - cbn [scan_test_files].
    destruct f as [strict [e|content] | entries]; cbn [is_file read_text_ignore].
    + rewrite IH. split; intros (s0 & c0 & l0 & Hin & Hl & Hc); exists s0, c0, l0.
      * now (split; [right|]).
      * destruct Hin as [Hin|Hin]; [discriminate | easy].
    + destruct (existsb (fun lib => contains lib content) property_libs) eqn:E.
      * split; [intros _ | reflexivity].
        apply existsb_exists in E. destruct E as (lib & Hl & Hc).
        exists strict, content, lib. split; [now left | easy].
      * rewrite IH. split; intros (s0 & c0 & l0 & Hin & Hl & Hc).
        -- exists s0, c0, l0. now (split; [right|]).
        -- destruct Hin as [Hin|Hin]; [|now exists s0, c0, l0].
           injection Hin as -> ->.
           assert (X : existsb (fun lib => contains lib c0) property_libs = true)
             by (apply existsb_exists; now exists l0).
           congruence.
    + rewrite IH. split; intros (s0 & c0 & l0 & Hin & Hl & Hc); exists s0, c0, l0.
      * now (split; [right|]).
      * destruct Hin as [Hin|Hin]; [discriminate | easy].
Qed.

Variable fs : node.

Lemma has_formal_spec (self : RSRChecker) :
  has_formal fs self = true <-> formal_entry_exists fs self.
Proof.
  unfold has_formal, formal_entry_exists. rewrite existsb_exists. split.
  - intros (f & Hin & Hex). unfold check_file_exists, lookup in Hex.
    destruct (walk [] fs (joinpath (repo_path self) f)) as [n|] eqn:E; [|discriminate].
    cbn in Hin.
    destruct Hin as [<-|[<-|[<-|[<-|[<-|[]]]]]];
      [exists "proofs" | exists "formal" | exists "coq" | exists "isabelle" | exists "tla+"];
      exists n; (split; [cbn; tauto | exact E]).
  - intros (d & n & Hin & E). cbn in Hin.
    destruct Hin as [<-|[<-|[<-|[<-|[<-|[]]]]]];
      [exists "proofs/" | exists "formal/" | exists "coq/" | exists "isabelle/"
       | exists "tla+/"];
      (split; [cbn; tauto |]); unfold check_file_exists, lookup;
      match goal with
      | |- context [joinpath ?base ?p] =>
          let parts := eval cbv in (path_parts p) in
          change (joinpath base p) with (base ++ parts)%list
      end;
      now rewrite E.
Qed.

Lemma has_property_tests_spec (self : RSRChecker) :
  has_property_tests fs self = true <-> test_file_has_marker fs self.
Proof.
  unfold has_property_tests, test_file_has_marker, check_file_exists, lookup.
  change (joinpath (repo_path self) "tests") with (repo_path self ++ ["tests"])%list.
  destruct (walk [] fs (repo_path self ++ ["tests"])) as [tests|].
  - rewrite scan_test_files_spec. split.
    + intros (strict & content & lib & Hin & Hl & Hc).
      exists tests, strict, content, lib. split; [reflexivity|].
      split; [now apply rglob_all_sound|]. split; [exact Hl|].
      now apply contains_spec.
    + intros (t & strict & content & lib & Et & Hb & Hl & Ho).
      injection Et as <-. exists strict, content, lib.
      split; [now apply rglob_all_complete|]. split; [exact Hl|].
      now apply contains_spec.
  - split; [discriminate | intros (t & _ & _ & _ & Et & _); discriminate].
Qed.

(** C7: the Gold "Formal verification" check passes exactly when one of
    [proofs], [formal], [coq], [isabelle], [tla+] is an entry of the
    repository (a directory or a file), or a readable regular file below
    [tests] holds one of the markers [hypothesis], [quickcheck], [proptest]. *)
Theorem formal_verification_check (self : RSRChecker) :
  status (check_gold_level_formal fs self) = true <->
  formal_entry_exists fs self \/ test_file_has_marker fs self.
Proof.
  cbn [status check_gold_level_formal].
  rewrite orb_true_iff, has_formal_spec, has_property_tests_spec. reflexivity.
Qed.

End GoldProperties.

(** A regular file named [coq] passes the check although the repository has
    no formal-verification directory and no tests. *)
Lemma formal_verification_check_accepts_file :
  status (check_gold_level_formal coq_file_fs sample_checker) = true /\
  ~ formal_directory_exists coq_file_fs sample_checker /\
  ~ test_file_has_marker coq_file_fs sample_checker.
Proof.
  split; [reflexivity|]. split.
  - intros (d & entries & Hin & Hw). cbn in Hin.
    destruct Hin as [<-|[<-|[<-|[<-|[<-|[]]]]]]; discriminate.
  - intros (t & s0 & c & l & Hw & _). discriminate.
Qed.

(** The sample repository passes through its property-based tests. *)
Example formal_verification_check_sample :
  status (check_gold_level_formal sample_fs sample_checker) = true /\
  details (check_gold_level_formal sample_fs sample_checker) = "Property-based testing".
Proof. split; reflexivity. Qed.

(** ** The export adapters *)

Section ExportProperties.

Lemma level_to_json_score (self : RSRChecker) (level : string)
      (checks : list ComplianceCheck) :
  get_level_score (report self) (capitalize level) = inr (score_of checks) ->
  getattr (report self) (level ++ "_checks") = inr checks ->
  level_to_json self level = inr (level_json checks).
Proof.
  intros Hs Hg. unfold level_to_json. rewrite Hs, Hg. reflexivity.
Qed.

Lemma export_json_value (self : RSRChecker) (now output_file : string) :
  export_json self now output_file =
  inr (path_str (joinpath (repo_path self) output_file),
       JObject
         [("timestamp", JString now);
          ("repository", JString (path_str (repo_path self)));
          ("overall_level",
           JString (gate_table (pct (bronze_checks (report self)))
                               (pct (silver_checks (report self)))
                               (pct (gold_checks (report self)))
                               (pct (platinum_checks (report self)))));
          ("levels",
           JObject
             [("bronze", level_json (bronze_checks (report self)));
              ("silver", level_json (silver_checks (report self)));
              ("gold", level_json (gold_checks (report self)));
              ("platinum", level_json (platinum_checks (report self)))])]).
Proof.
  unfold export_json. rewrite get_overall_level_gate.
  cbn [bind ret Monad_either export_levels].
  rewrite (level_to_json_score self "bronze" (bronze_checks (report self)))
    by reflexivity.
  rewrite (level_to_json_score self "silver" (silver_checks (report self)))
    by reflexivity.
  rewrite (level_to_json_score self "gold" (gold_checks (report self)))
    by reflexivity.
  rewrite (level_to_json_score self "platinum" (platinum_checks (report self)))
    by reflexivity.
  reflexivity.
Qed.

(** C5: the exported document holds, for every level, the score triple of
    [get_level_score] at export time; its [levels.bronze.score.passed] is the
    number of Bronze checks whose status is true. *)
Theorem export_json_scores (self : RSRChecker) (now output_file : string) :
  exists (path : string) (data : json),
    export_json self now output_file = inr (path, data) /\
    json_get ["levels"; "bronze"; "score"; "passed"] data =
      Some (JInt (Z.of_nat (count_occ bool_dec
                                      (map status (bronze_checks (report self))) true))) /\
    Forall (fun level =>
              exists score : nat * nat * Float64.float,
                get_level_score (report self) (capitalize level) = inr score /\
                exported_score data level = Some (score_json score))
           ["bronze"; "silver"; "gold"; "platinum"].
Proof.
  rewrite export_json_value.
  eexists _, _. split; [reflexivity|]. split.
  - cbn. now rewrite passed_of_count.
  - repeat constructor; eexists; (split; [reflexivity|]); reflexivity.
Qed.

Lemma contains_char_cons (a c : ascii) (t : string) :
  contains (String a "") (String c t) = Ascii.eqb a c || contains (String a "") t.
Proof.
  cbn [contains prefix]. destruct (ascii_dec a c) as [->|N].
  - rewrite Ascii.eqb_refl. now destruct t.
  - apply Ascii.eqb_neq in N. now rewrite N.
Qed.

Lemma replace_no_space (s : string) : contains " " (replace " " "%20" s) = false.
Proof.
  induction s as [|c s IH]; [reflexivity|].
  cbn [replace]. destruct (Ascii.eqb_spec c " ") as [->|N].
  - cbn [append]. rewrite !contains_char_cons, IH. reflexivity.
  - rewrite contains_char_cons, IH. apply Ascii.eqb_neq in N.
    rewrite Ascii.eqb_sym, N. reflexivity.
Qed.

Lemma replace_chars (s : string) :
  replace " " "%20" s =
  String.concat "" (map (fun c => if Ascii.eqb c " " then "%20" else String c "")
                 (list_ascii_of_string s)).
Proof.
  induction s as [|c s IH]; [reflexivity|].
  cbn [replace list_ascii_of_string map String.concat]. rewrite IH.
  destruct (Ascii.eqb c " "); destruct (map _ _); cbn; rewrite ?append_nil_r; reflexivity.
Qed.

Lemma dict_get_colors_default (level : string) :
  ~ In level ["Platinum"; "Gold"; "Silver"; "Bronze"; "Non-compliant"] ->
  dict_get colors level "lightgrey" = "lightgrey".
Proof.
  intros H. unfold dict_get, colors. cbn [assoc].
  repeat match goal with
  | |- context [String.eqb ?a level] =>
      destruct (String.eqb_spec a level) as [E|E];
      [exfalso; apply H; rewrite <- E; cbn; tauto | clear E]
  end.
  reflexivity.
Qed.

(** C8: the badge URL is [https://img.shields.io/badge/RSR-{level}-{color}]
    with every space of the level written [%20]; the color comes from the
    table, "yellow" for "Gold", and is "lightgrey" for a level outside it. *)
Theorem generate_badge_url :
  (forall self : RSRChecker,
      exists level : string,
        get_overall_level (report self) = inr level /\
        generate_badge self =
        inr ("https://img.shields.io/badge/RSR-" ++ replace " " "%20" level
               ++ "-" ++ dict_get colors level "lightgrey")) /\
  (forall level : string,
      replace " " "%20" level =
      String.concat "" (map (fun c => if Ascii.eqb c " " then "%20" else String c "")
                     (list_ascii_of_string level)) /\
      contains " " (replace " " "%20" level) = false) /\
  map (fun level => dict_get colors level "lightgrey")
      ["Platinum"; "Gold"; "Silver"; "Bronze"; "Non-compliant"] =
    ["purple"; "yellow"; "silver"; "orange"; "red"] /\
  (forall level : string,
      ~ In level ["Platinum"; "Gold"; "Silver"; "Bronze"; "Non-compliant"] ->
      badge_url level =
      "https://img.shields.io/badge/RSR-" ++ replace " " "%20" level ++ "-lightgrey") /\
  badge_url "Gold" = "https://img.shields.io/badge/RSR-Gold-yellow".
Proof.
  split; [|split; [|split; [|split]]].
  - intros self. unfold generate_badge. rewrite get_overall_level_gate.
    eexists. split; reflexivity.
  - intros lvl. split; [apply replace_chars | apply replace_no_space].
  - reflexivity.
  - intros lvl H. unfold badge_url. now rewrite dict_get_colors_default.
  - reflexivity.
Qed.

(** The badge of a level that is not in the table. *)
Example badge_url_unknown_level :
  badge_url "Rhodium Plus" = "https://img.shields.io/badge/RSR-Rhodium%20Plus-lightgrey".
Proof. reflexivity. Qed.





End ExportProperties.



(** ** Properties of the checklist *)

Section ChecklistProperties.

Variable fs : node.
Variable re_search : string -> string -> result bool.

Lemma check_file_content_returns (self : RSRChecker) (path : string)
      (patterns : list string) :
  exists (ok : bool) (detail : string),
    check_file_content fs re_search self path patterns = inr (ok, detail).
Proof.
  unfold check_file_content.
  destruct (negb (check_file_exists fs self path)); [eexists _, _; reflexivity|].
  cbn [bind ret catch Monad_either Exception_either].
  destruct (read_text fs self path) as [e|content]; [eexists _, _; reflexivity|].
  destruct (find_missing re_search content patterns []) as [e|[|m ms]];
    eexists _, _; reflexivity.
Qed.

Ltac run_content_checks :=
  repeat match goal with
  | |- context [check_file_content ?f ?r ?s ?p ?ps] =>
      let ok := fresh "ok" in
      let detail := fresh "detail" in
      destruct (check_file_content_returns s p ps) as (ok & detail & ->)
  end.

Lemma check_bronze_level_value (self : RSRChecker) :
  check_bronze_level fs re_search self =
  inr (set_bronze_checks self (bronze_of fs re_search self)).
Proof.
  unfold bronze_of, check_bronze_level. run_content_checks. reflexivity.
Qed.

Lemma check_silver_level_value (self : RSRChecker) :
  check_silver_level fs re_search self =
  inr (set_silver_checks self (silver_of fs re_search self)).
Proof.
  unfold silver_of, check_silver_level.
  destruct (check_file_exists fs self "LICENSE"),
    (check_file_exists fs self "flake.nix"); run_content_checks; reflexivity.
Qed.

Ltac same_repo_path p r1 r2 :=
  change (check_file_content fs re_search {| repo_path := p; report := r1 |})
    with (check_file_content fs re_search {| repo_path := p; report := r2 |});
  change (check_file_exists fs {| repo_path := p; report := r1 |})
    with (check_file_exists fs {| repo_path := p; report := r2 |}).

Lemma silver_of_repo_path (s1 s2 : RSRChecker) :
  repo_path s1 = repo_path s2 -> silver_of fs re_search s1 = silver_of fs re_search s2.
Proof.
  destruct s1 as [p1 r1], s2 as [p2 r2]. cbn [repo_path]. intros ->.
  unfold silver_of, check_silver_level. same_repo_path p2 r1 r2.
  destruct (check_file_exists fs _ "LICENSE"), (check_file_exists fs _ "flake.nix");
    run_content_checks; reflexivity.
Qed.

Lemma bronze_of_repo_path (s1 s2 : RSRChecker) :
  repo_path s1 = repo_path s2 -> bronze_of fs re_search s1 = bronze_of fs re_search s2.
Proof.
  destruct s1 as [p1 r1], s2 as [p2 r2]. cbn [repo_path]. intros ->.
  unfold bronze_of, check_bronze_level. same_repo_path p2 r1 r2.
  run_content_checks. reflexivity.
Qed.

Lemma gold_of_repo_path (s1 s2 : RSRChecker) :
  repo_path s1 = repo_path s2 -> gold_of fs s1 = gold_of fs s2.
Proof.
  destruct s1 as [p1 r1], s2 as [p2 r2]. cbn [repo_path]. intros ->. reflexivity.
Qed.

Lemma platinum_of_repo_path (s1 s2 : RSRChecker) :
  repo_path s1 = repo_path s2 -> platinum_of fs s1 = platinum_of fs s2.
Proof.
  destruct s1 as [p1 r1], s2 as [p2 r2]. cbn [repo_path]. intros ->. reflexivity.
Qed.

Lemma run_checks_value (self : RSRChecker) :
  run_checks fs re_search self =
  inr {| repo_path := repo_path self;
         report := {| bronze_checks := bronze_of fs re_search self;
                      silver_checks := silver_of fs re_search self;
                      gold_checks := gold_of fs self;
                      platinum_checks := platinum_of fs self |} |}.
Proof.
  unfold run_checks. rewrite check_bronze_level_value.
  cbn [bind ret Monad_either]. rewrite check_silver_level_value.
  cbn [bind ret Monad_either].
  rewrite (silver_of_repo_path (set_bronze_checks self _) self) by reflexivity.
  unfold check_platinum_level, check_gold_level, set_platinum_checks, set_gold_checks,
    set_silver_checks, set_bronze_checks. cbn [repo_path report bronze_checks
    silver_checks gold_checks platinum_checks].
  f_equal.
Qed.

Ltac shape_of_list :=
  split; [reflexivity|]; split;
  [repeat constructor
  |cbn [map name new_check check_gold_level_formal check_gold_level_languages
          check_gold_level_security];
   repeat (constructor; [cbn; intuition discriminate|]); constructor].

Lemma bronze_of_shape (self : RSRChecker) :
  well_shaped "Bronze" 18 (bronze_of fs re_search self).
Proof.
  unfold bronze_of, check_bronze_level. run_content_checks.
  cbn [bind ret Monad_either set_bronze_checks report bronze_checks].
  shape_of_list.
Qed.

Lemma silver_of_shape (self : RSRChecker) :
  well_shaped "Silver" 6 (silver_of fs re_search self).
Proof.
  unfold silver_of, check_silver_level.
  destruct (check_file_exists fs self "LICENSE"),
    (check_file_exists fs self "flake.nix"); run_content_checks;
    cbn [bind ret Monad_either set_silver_checks report silver_checks];
    shape_of_list.
Qed.

Lemma gold_of_shape (self : RSRChecker) : well_shaped "Gold" 3 (gold_of fs self).
Proof.
  unfold gold_of, check_gold_level.
  cbn [set_gold_checks report gold_checks]. shape_of_list.
Qed.

Lemma platinum_of_shape (self : RSRChecker) :
  well_shaped "Platinum" 4 (platinum_of fs self).
Proof.
  unfold platinum_of, check_platinum_level.
  cbn [set_platinum_checks report platinum_checks]. shape_of_list.
Qed.

(** X1: the checker that [run_checks] returns has kept the repository path
    and holds 18 Bronze, 6 Silver, 3 Gold and 4 Platinum checks, each carrying
    the level of its list, [required = True], [weight = 1.0] and a name of
    its own. *)
Theorem run_checks_shape (self self' : RSRChecker) :
  run_checks fs re_search self = inr self' ->
  repo_path self' = repo_path self /\
  well_shaped "Bronze" 18 (bronze_checks (report self')) /\
  well_shaped "Silver" 6 (silver_checks (report self')) /\
  well_shaped "Gold" 3 (gold_checks (report self')) /\
  well_shaped "Platinum" 4 (platinum_checks (report self')).
Proof.
  rewrite run_checks_value. intros [= <-].
  cbn [repo_path report bronze_checks silver_checks gold_checks platinum_checks].
  split; [reflexivity|].
  split; [apply bronze_of_shape|]. split; [apply silver_of_shape|].
  split; [apply gold_of_shape | apply platinum_of_shape].
Qed.

(** X2: the report that [run_checks] leaves depends on the repository path
    and the file system only: whatever the report held before is replaced,
    and running the checks again changes nothing. *)
Theorem run_checks_replaces_report (self : RSRChecker) (previous : ComplianceReport) :
  run_checks fs re_search {| repo_path := repo_path self; report := previous |} =
  run_checks fs re_search self /\
  (forall self' : RSRChecker,
      run_checks fs re_search self = inr self' ->
      run_checks fs re_search self' = inr self').
Proof.
  assert (H : forall s1 s2 : RSRChecker,
             repo_path s1 = repo_path s2 ->
             run_checks fs re_search s1 = run_checks fs re_search s2).
  { intros s1 s2 E. rewrite !run_checks_value.
    now rewrite E, (bronze_of_repo_path s1 s2 E), (silver_of_repo_path s1 s2 E),
      (gold_of_repo_path s1 s2 E), (platinum_of_repo_path s1 s2 E). }
  split.
  - now apply H.
  - intros self' Hrun. rewrite <- Hrun. apply H.
    rewrite run_checks_value in Hrun. injection Hrun as <-. reflexivity.
Qed.

Lemma check_file_content_detail (self : RSRChecker) (path : string)
      (patterns : list string) (ok : bool) (detail : string) :
  check_file_content fs re_search self path patterns = inr (ok, detail) ->
  (ok = true /\ detail = "All required content present") \/
  (ok = false /\
   ((exists x, detail = "File " ++ x) \/ (exists x, detail = "Missing patterns: " ++ x)
    \/ (exists x, detail = "Error reading file: " ++ x))).
Proof.
  unfold check_file_content.
  destruct (negb (check_file_exists fs self path)).
  - intros H. injection H as <- <-. right. split; [reflexivity|]. left. eexists. reflexivity.
  - cbn [bind ret catch Monad_either Exception_either].
    destruct (read_text fs self path) as [e|content].
    + intros H. injection H as <- <-. right. split; [reflexivity|].
      right. right. eexists. reflexivity.
    + destruct (find_missing re_search content patterns []) as [e|[|m ms]];
        intros H; injection H as <- <-.
      * right. split; [reflexivity|]. right. right. eexists. reflexivity.
      * now left.
      * right. split; [reflexivity|]. right. left. eexists. reflexivity.
Qed.

Ltac run_content_checks_with_detail :=
  repeat match goal with
  | |- context [check_file_content ?f ?r ?s ?p ?ps] =>
      let ok := fresh "ok" in
      let detail := fresh "detail" in
      let E := fresh "E" in
      destruct (check_file_content_returns s p ps) as (ok & detail & E);
      apply check_file_content_detail in E as ?;
      rewrite E; clear E
  end.

Ltac content_detail_cases :=
  cbn [status details new_check];
  try match goal with
  | H : (_ = true /\ ?d = _) \/ (_ = false /\ _) |- context [?d] =>
      destruct H as [[-> ->] | [-> [[? ->] | [[? ->] | [? ->]]]]]
  end.

Ltac detail_agrees :=
  repeat match goal with
  | H : _ \/ _ |- _ => clear H
  end;
  cbn [status details new_check In append];
  try match goal with
  | |- context [found_or_missing ?b] => destruct b; cbn [found_or_missing]
  | |- context [found_or_not ?b] => destruct b; cbn [found_or_not]
  end;
  split; intros; intuition (discriminate || congruence).

(** X3: in the Bronze, Silver and Platinum lists that [run_checks] leaves,
    the details agree with the status: a check passed exactly when its
    details are one of the positive texts of its level. *)
Theorem run_checks_details_agree (self : RSRChecker) :
  exists self' : RSRChecker,
    run_checks fs re_search self = inr self' /\
    Forall (fun c => status c = true <->
                     In (details c) ["Found"; "All required content present"])
           (bronze_checks (report self')) /\
    Forall (fun c => status c = true <->
                     In (details c) ["Found"; "All required content present"; "Complete";
                                     "2/3 guides found"; "3/3 guides found"])
           (silver_checks (report self')) /\
    Forall (fun c => status c = true <-> details c = "Found")
           (platinum_checks (report self')).
Proof.
  rewrite run_checks_value. eexists. split; [reflexivity|].
  cbn [report bronze_checks silver_checks platinum_checks].
  split; [|split].
  - unfold bronze_of, check_bronze_level. run_content_checks_with_detail.
    cbn [bind ret Monad_either set_bronze_checks report bronze_checks].
    repeat (apply Forall_cons; [content_detail_cases; detail_agrees|]).
    apply Forall_nil.
  - unfold silver_of, check_silver_level.
    destruct (check_file_exists fs self "LICENSE"),
      (check_file_exists fs self "flake.nix"); run_content_checks_with_detail;
      cbn [bind ret Monad_either set_silver_checks report silver_checks];
      (apply Forall_cons; [detail_agrees|]);
      (apply Forall_cons; [detail_agrees|]);
      (apply Forall_cons; [content_detail_cases; detail_agrees|]);
      (apply Forall_cons;
       [match goal with
        | |- context [forallb ?f ?l] => destruct (forallb f l)
        end; detail_agrees|]);
      (apply Forall_cons;
       [cbn [filter];
        destruct (check_file_exists fs self "INSTALLATION_GUIDE.md"),
          (check_file_exists fs self "USAGE_GUIDE.md"),
          (check_file_exists fs self "FEATURES.md"); cbn; intuition discriminate|]);
      (apply Forall_cons; [content_detail_cases; detail_agrees|]);
      apply Forall_nil.
  - unfold platinum_of, check_platinum_level.
    cbn [set_platinum_checks report platinum_checks].
    repeat (apply Forall_cons;
            [cbn [status details new_check];
             match goal with
             | |- context [found_or_not ?b] => destruct b; cbn [found_or_not]
             end; split; intros; discriminate || reflexivity|]).
    apply Forall_nil.
Qed.

Ltac compute_status_of :=
  unfold status_of; cbn [find name new_check];
  repeat match goal with
  | |- context [String.eqb ?a ?b] =>
      let v := eval vm_compute in (String.eqb a b) in
      change (String.eqb a b) with v
  | H : context [String.eqb ?a ?b] |- _ =>
      let v := eval vm_compute in (String.eqb a b) in
      change (String.eqb a b) with v in H
  end;
  cbn [option_map status new_check].

(** X4: what Silver accepts, Bronze has accepted.  When the Silver check
    "Complete .well-known" passes, so do the Bronze checks on [ai.txt] and
    [humans.txt]; when the Silver check "Nix flakes" passes, so does the
    Bronze check "flake.nix". *)
Theorem silver_checks_imply_bronze (self : RSRChecker) :
  exists self' : RSRChecker,
    run_checks fs re_search self = inr self' /\
    (status_of "Complete .well-known" (silver_checks (report self')) = Some true ->
     status_of ".well-known/ai.txt" (bronze_checks (report self')) = Some true /\
     status_of ".well-known/humans.txt" (bronze_checks (report self')) = Some true) /\
    (status_of "Nix flakes" (silver_checks (report self')) = Some true ->
     status_of "flake.nix" (bronze_checks (report self')) = Some true).
Proof.
  rewrite run_checks_value. eexists. split; [reflexivity|].
  cbn [report bronze_checks silver_checks].
  unfold bronze_of, silver_of, check_bronze_level, check_silver_level.
  destruct (check_file_exists fs self "LICENSE"),
    (check_file_exists fs self "flake.nix");
    run_content_checks;
    cbn [bind ret Monad_either set_bronze_checks set_silver_checks report
           bronze_checks silver_checks];
    (split; [intros H | intros H]); compute_status_of;
    revert H; compute_status_of; cbn [forallb append];
    intros H; try discriminate; try reflexivity;
    injection H as H; apply andb_true_iff in H; destruct H as [_ H];
    apply andb_true_iff in H; destruct H as [H1 H];
    apply andb_true_iff in H; destruct H as [H2 _];
    split; f_equal; assumption.
Qed.

Lemma scan_ci_files_exists (self : RSRChecker) (ci_files : list string) :
  scan_ci_files fs self ci_files = true ->
  existsb (check_file_exists fs self) ci_files = true.
Proof.
  induction ci_files as [|f rest IH]; [discriminate|].
  cbn [scan_ci_files existsb]. unfold check_file_exists at 1.
  destruct (lookup fs self f) as [n|]; [reflexivity|]. exact IH.
Qed.

(** X5: what Gold detects, Bronze has accepted.  When the Gold level finds
    property-based tests, the Bronze check "Test structure" passes; when it
    finds security scanning in the CI configuration, the Bronze check "CI/CD"
    passes. *)
Theorem gold_findings_imply_bronze (self : RSRChecker) :
  exists self' : RSRChecker,
    run_checks fs re_search self = inr self' /\
    (has_property_tests fs self = true ->
     status_of "Test structure" (bronze_checks (report self')) = Some true) /\
    (has_security_scanning fs self = true ->
     status_of "CI/CD" (bronze_checks (report self')) = Some true).
Proof.
  rewrite run_checks_value. eexists. split; [reflexivity|].
  cbn [report bronze_checks].
  unfold bronze_of, check_bronze_level. run_content_checks.
  cbn [bind ret Monad_either set_bronze_checks report bronze_checks].
  split; intros H; compute_status_of; f_equal.
  - unfold has_property_tests in H. cbn [existsb].
    destruct (check_file_exists fs self "tests"); [reflexivity | discriminate].
  - unfold has_security_scanning in H. apply scan_ci_files_exists in H.
    cbn [existsb] in H |- *.
    destruct (check_file_exists fs self ".gitlab-ci.yml"); [reflexivity|].
    destruct (check_file_exists fs self ".github/workflows"); [reflexivity|].
    discriminate.
Qed.

Lemma lt_int_100_count (p t : nat) :
  (0 < t)%nat -> (Z.of_nat t <= 2 ^ 53)%Z -> (p <= t)%nat ->
  Float64.lt_int (percentage_of p t) 100 = (p <? t)%nat.
Proof.
  intros Ht Hb Hp. destruct (Nat.ltb_spec p t) as [Hlt|Hge].
  - apply lt_int_spec. apply percentage_of_lt_100; assumption.
  - apply lt_int_false. assert (p = t) by lia. subst p.
    pose proof (percentage_of_full t Ht) as E. rewrite E. apply Qle_refl.
Qed.

Lemma lt_int_66_of_3 (p : nat) :
  (p <= 3)%nat -> Float64.lt_int (percentage_of p 3) 66 = (p <? 2)%nat.
Proof.
  intros H.
  destruct p as [|[|[|[|p]]]]; [now vm_compute ..|lia].
Qed.

Lemma lt_int_66_of_4 (p : nat) :
  (p <= 4)%nat -> Float64.lt_int (percentage_of p 4) 66 = (p <? 3)%nat.
Proof.
  intros H.
  destruct p as [|[|[|[|[|p]]]]]; [now vm_compute ..|lia].
Qed.

Lemma checklist_level (r : ComplianceReport) :
  length (bronze_checks r) = 18%nat -> length (silver_checks r) = 6%nat ->
  length (gold_checks r) = 3%nat -> length (platinum_checks r) = 4%nat ->
  get_overall_level r =
  inr (checklist_gate (passed_of (bronze_checks r)) (passed_of (silver_checks r))
                      (passed_of (gold_checks r)) (passed_of (platinum_checks r))).
Proof.
  intros Hb Hs Hg Hp. rewrite get_overall_level_unfold. unfold pct.
  pose proof (passed_of_le_length (bronze_checks r)) as Lb.
  pose proof (passed_of_le_length (silver_checks r)) as Ls.
  pose proof (passed_of_le_length (gold_checks r)) as Lg.
  pose proof (passed_of_le_length (platinum_checks r)) as Lp.
  rewrite Hb, Hs, Hg, Hp in *.
  rewrite (lt_int_100_count _ 18), (lt_int_100_count _ 6), lt_int_66_of_3, lt_int_66_of_4
    by (assumption || lia || (cbn; lia)).
  unfold checklist_gate.
  repeat match goal with
  | |- context [(?a <? ?b)%nat] => destruct (a <? b)%nat
  end; reflexivity.
Qed.

(** X6: after [run_checks] the overall level is decided by the numbers of
    passed checks: "Non-compliant" below 18 Bronze, else "Bronze" below 6
    Silver, else "Silver" below 2 of the 3 Gold checks, else "Gold" below 3 of
    the 4 Platinum checks, else "Platinum". *)
Theorem run_checks_level_by_counts (self : RSRChecker) :
  exists self' : RSRChecker,
    run_checks fs re_search self = inr self' /\
    get_overall_level (report self') =
    inr (checklist_gate (passed_of (bronze_checks (report self')))
                        (passed_of (silver_checks (report self')))
                        (passed_of (gold_checks (report self')))
                        (passed_of (platinum_checks (report self')))).
Proof.
  rewrite run_checks_value. eexists. split; [reflexivity|].
  apply checklist_level;
    cbn [report bronze_checks silver_checks gold_checks platinum_checks].
  - apply bronze_of_shape.
  - apply silver_of_shape.
  - apply gold_of_shape.
  - apply platinum_of_shape.
Qed.






End ChecklistProperties.

Lemma run_checks_shape_witness :
  well_shaped "Bronze" 18 (bronze_of sample_fs literal_re_search sample_checker) /\
  well_shaped "Silver" 6 (silver_of sample_fs literal_re_search sample_checker) /\
  well_shaped "Gold" 3 (gold_of sample_fs sample_checker) /\
  well_shaped "Platinum" 4 (platinum_of sample_fs sample_checker).
Proof.
  exact (proj2 (run_checks_shape sample_fs literal_re_search sample_checker _
                                 (run_checks_value sample_fs literal_re_search
                                                   sample_checker))).
Defined.

(** ** Accuracy of the percentages *)

Section Accuracy.

Import Float64 Float64Facts.
Local Open Scope Q_scope.

Lemma rne_error (y : Q) : - (1 # 2) <= inject_Z (rne y) - y <= 1 # 2.
Proof.
  pose proof (Qfloor_le y) as H1. pose proof (Qlt_floor y) as H2.
  rewrite inject_Z_plus in H2. change (inject_Z 1) with 1 in H2.
  unfold rne.
  destruct (Qcompare_spec (y - inject_Z (Qfloor y)) (1 # 2));
    try destruct (Z.even (Qfloor y));
    rewrite ?inject_Z_plus; change (inject_Z 1) with 1; lra.
Qed.

Lemma round_pos_error (x : Q) (E : Z) :
  0 < x -> (fexp (ilog2 x + 1) <= E)%Z ->
  - (1 # 2) * 2 ^ E <= round_pos x - x <= (1 # 2) * 2 ^ E.
Proof.
  intros Hx HE. unfold round_pos.
  set (e := fexp (ilog2 x + 1)) in *.
  pose proof (pow2_pos e) as Pe. pose proof (pow2_cancel e) as Hc.
  pose proof (pow2_le e E HE) as Hle.
  pose proof (rne_error (x * 2 ^ (- e))) as [H1 H2].
  set (m := inject_Z (rne (x * 2 ^ (- e)))) in *.
  assert (Hx' : x == (x * 2 ^ (- e)) * 2 ^ e).
  { rewrite <- Qmult_assoc, Hc. ring. }
  set (y := x * 2 ^ (- e)) in *.
  assert (Hd : m * 2 ^ e - x == (m - y) * 2 ^ e) by (rewrite Hx' at 1; ring).
  rewrite Hd. split; nra.
Qed.

Lemma ilog2_lt (x : Q) (k : Z) : 0 < x -> x < 2 ^ k -> (ilog2 x < k)%Z.
Proof.
  intros Hx Hk. destruct (ilog2_spec x Hx) as [H1 _].
  apply pow2_lt_inv. lra.
Qed.

Lemma RN_error_below_1 (x : Q) :
  0 <= x -> x < 1 ->
  - (1 # 18014398509481984) <= RN x - x <= 1 # 18014398509481984.
Proof.
  intros H0 H1. destruct (Qlt_le_dec 0 x) as [Hx|Hx].
  - rewrite RN_pos by assumption.
    assert (Hl : (ilog2 x < 0)%Z) by (apply ilog2_lt; [assumption | exact H1]).
    pose proof (round_pos_error x (-53) Hx) as H.
    assert (E : 2 ^ (-53) == 1 # 9007199254740992) by reflexivity.
    rewrite E in H. unfold fexp, prec, emin in H.
    specialize (H ltac:(lia)). lra.
  - rewrite RN_0 by lra. lra.
Qed.

Lemma RN_error_below_128 (y : Q) :
  0 <= y -> y < 128 ->
  - (1 # 140737488355328) <= RN y - y <= 1 # 140737488355328.
Proof.
  intros H0 H1. destruct (Qlt_le_dec 0 y) as [Hy|Hy].
  - rewrite RN_pos by assumption.
    assert (Hl : (ilog2 y < 7)%Z) by (apply ilog2_lt; [assumption | exact H1]).
    pose proof (round_pos_error y (-46) Hy) as H.
    assert (E : 2 ^ (-46) == 1 # 70368744177664) by reflexivity.
    rewrite E in H. unfold fexp, prec, emin in H.
    specialize (H ltac:(lia)). lra.
  - rewrite RN_0 by lra. lra.
Qed.

(** The float percentage is within [2^-46] of the exact ratio. *)
Lemma percentage_of_accuracy (p t : nat) :
  (0 < t)%nat -> (p <= t)%nat ->
  - (1 # 70368744177664)
  <= percentage_of p t - 100 * inject_Z (Z.of_nat p) / inject_Z (Z.of_nat t)
  <= 1 # 70368744177664.
Proof.
  intros Ht Hp.
  assert (HT : 0 < inject_Z (Z.of_nat t)).
  { change 0 with (inject_Z 0). rewrite <- Zlt_Qlt. lia. }
  destruct (Nat.eq_dec p t) as [->|Hne].
  - rewrite (percentage_of_full t Ht).
    setoid_replace (100 * inject_Z (Z.of_nat t) / inject_Z (Z.of_nat t)) with 100
      by (field; lra). lra.
  - unfold percentage_of. destruct (Nat.ltb_spec 0 t) as [_|C]; [|lia].
    set (x := inject_Z (Z.of_nat p) / inject_Z (Z.of_nat t)).
    assert (Hq : 100 * inject_Z (Z.of_nat p) / inject_Z (Z.of_nat t) == 100 * x)
      by (unfold x; field; lra).
    rewrite Hq.
    destruct (ratio_range p t Ht Hp) as [Hx0 _]. fold x in Hx0.
    assert (Hx1 : x < 1).
    { unfold x. apply Qlt_shift_div_r; [assumption|].
      rewrite Qmult_1_l, <- Zlt_Qlt. lia. }
    unfold int_truediv. fold x.
    pose proof (RN_error_below_1 x Hx0 Hx1) as Hr.
    destruct (int_truediv_range p t Ht Hp) as [Hr0 Hr1].
    unfold int_truediv in Hr0, Hr1. fold x in Hr0, Hr1.
    pose proof of_int_100 as E100.
    unfold mul. set (y := RN x * of_int 100) in *.
    assert (Hy : y == RN x * 100) by (unfold y; rewrite E100; reflexivity).
    pose proof (RN_error_below_128 y) as Hry.
    specialize (Hry ltac:(lra) ltac:(lra)). lra.
Qed.

Lemma level_score_spec_of (r : ComplianceReport) (level : string)
      (checks : list ComplianceCheck) :
  get_level_score r level = inr (score_of checks) -> level_score_spec r level checks.
Proof.
  intros H. exists (passed_of checks), (length checks), (pct checks).
  split; [exact H|]. split; [apply passed_of_count|]. split; [reflexivity|].
  split; [|split; [|split; [|split]]].
  - intros Ht. unfold pct, percentage_of.
    destruct (Nat.ltb_spec 0 (length checks)); [reflexivity | lia].
  - intros Ht. unfold pct.
    apply percentage_of_accuracy; [exact Ht | apply passed_of_le_length].
  - intros Ht Hp. unfold pct. rewrite Hp. now apply percentage_of_full.
  - intros Ht. unfold pct, percentage_of. now rewrite Ht.
  - apply pct_range.
Qed.

(** C2: for each level, [get_level_score] returns the count of checks whose
    status is true, the length of the list, and the percentage
    [passed / total * 100] when the list is not empty, [0.0] when it is.  The
    percentage is the float product of the float quotient by 100; it lies
    within [2^-46] of the exact [100 * passed / total], and it is exactly 100
    when every check passed. *)
Theorem get_level_score_triple (r : ComplianceReport) :
  level_score_spec r "Bronze" (bronze_checks r) /\
  level_score_spec r "Silver" (silver_checks r) /\
  level_score_spec r "Gold" (gold_checks r) /\
  level_score_spec r "Platinum" (platinum_checks r).
Proof.
  repeat split; apply level_score_spec_of; reflexivity.
Qed.

(** X8: the percentage that [get_level_score] returns for a level with at
    least one check differs from the exact value of [100 * passed / total] by
    at most [2^-46]. *)
Theorem get_level_score_accuracy (r : ComplianceReport) (level : string)
        (passed total : nat) (percentage : float) :
  get_level_score r level = inr (passed, total, percentage) ->
  (0 < total)%nat ->
  - (1 # 70368744177664)
  <= percentage - 100 * inject_Z (Z.of_nat passed) / inject_Z (Z.of_nat total)
  <= 1 # 70368744177664.
Proof.
  intros H Ht. rewrite get_level_score_getattr in H.
  destruct (getattr r (lower level ++ "_checks")) as [e|checks]; [discriminate|].
  unfold score_of in H. injection H as <- <- <-.
  apply percentage_of_accuracy; [assumption | apply passed_of_le_length].
Qed.

Lemma get_level_score_accuracy_witness :
  - (1 # 70368744177664)
  <= percentage_of 1 2 - 100 * inject_Z 1 / inject_Z 2
  <= 1 # 70368744177664.
Proof.
  apply (get_level_score_accuracy sample_report "Silver" 1 2 (percentage_of 1 2)).
  - reflexivity.
  - repeat constructor.
Defined.

Lemma RN_two_thirds_gate : 66 <= RN (RN (33 # 50) * of_int 100).
Proof. now vm_compute. Qed.

Lemma lt_int_66_count (p t : nat) :
  (0 < t)%nat -> (Z.of_nat t <= 2 ^ 46)%Z -> (p <= t)%nat ->
  lt_int (percentage_of p t) 66 = (50 * p <? 33 * t)%nat.
Proof.
  intros Ht Hb Hp.
  assert (HT : 0 < inject_Z (Z.of_nat t)).
  { change 0 with (inject_Z 0). rewrite <- Zlt_Qlt. lia. }
  assert (HP : 0 <= inject_Z (Z.of_nat p)).
  { change 0 with (inject_Z 0). rewrite <- Zle_Qle. lia. }
  assert (HB : inject_Z (Z.of_nat t) <= 70368744177664).
  { change 70368744177664 with (inject_Z (2 ^ 46)). now rewrite <- Zle_Qle. }
  set (x := inject_Z (Z.of_nat p) / inject_Z (Z.of_nat t)).
  assert (Hxt : x * inject_Z (Z.of_nat t) == inject_Z (Z.of_nat p))
    by (unfold x; field; lra).
  destruct (Nat.ltb_spec (50 * p) (33 * t)) as [Hlt|Hge].
  - apply lt_int_spec. change (inject_Z 66) with 66.
    pose proof (percentage_of_accuracy p t Ht Hp) as [_ Hacc].
    assert (Hq : 100 * inject_Z (Z.of_nat p) / inject_Z (Z.of_nat t) == 100 * x)
      by (unfold x; field; lra).
    rewrite Hq in Hacc.
    assert (HZ : (50 * Z.of_nat p + 1 <= 33 * Z.of_nat t)%Z) by lia.
    rewrite Zle_Qle, inject_Z_plus, !inject_Z_mult in HZ.
    change (inject_Z 50) with 50 in HZ. change (inject_Z 33) with 33 in HZ.
    change (inject_Z 1) with 1 in HZ.
    assert (Hgap : 100 * x <= 66 - (1 # 35184372088832)).
    { apply Qnot_lt_le. intros C. nra. }
    lra.
  - apply lt_int_false. change (inject_Z 66) with 66.
    assert (HZ : (33 * Z.of_nat t <= 50 * Z.of_nat p)%Z) by lia.
    rewrite Zle_Qle, !inject_Z_mult in HZ.
    change (inject_Z 50) with 50 in HZ. change (inject_Z 33) with 33 in HZ.
    assert (Hx : 33 # 50 <= x).
    { unfold x. apply Qle_shift_div_l; [assumption|]. lra. }
    eapply Qle_trans; [exact RN_two_thirds_gate|].
    unfold percentage_of. destruct (Nat.ltb_spec 0 t) as [_|C]; [|lia].
    unfold mul, int_truediv. fold x.
    pose proof of_int_100 as E100.
    assert (Hm : RN (33 # 50) <= RN x) by (apply RN_mono; lra).
    assert (H0 : 0 <= RN (33 # 50)) by (apply RN_nonneg; lra).
    apply RN_mono; nra.
Qed.

Lemma lt_int_100_complete (checks : list ComplianceCheck) :
  (Z.of_nat (length checks) <= 2 ^ 46)%Z ->
  lt_int (pct checks) 100 = negb (complete checks).
Proof.
  intros Hb. unfold complete, pct.
  pose proof (passed_of_le_length checks) as Hle.
  destruct (Nat.ltb_spec 0 (length checks)) as [Hpos|Hz].
  - rewrite lt_int_100_count by (assumption || lia). cbn [andb].
    destruct (Nat.ltb_spec (passed_of checks) (length checks));
      destruct (Nat.eqb_spec (passed_of checks) (length checks)); (reflexivity || lia).
  - assert (E : length checks = 0%nat) by lia. rewrite E.
    assert (E' : passed_of checks = 0%nat) by lia. rewrite E'. reflexivity.
Qed.

Lemma lt_int_66_reaches (checks : list ComplianceCheck) :
  (Z.of_nat (length checks) <= 2 ^ 46)%Z ->
  lt_int (pct checks) 66 = negb (reaches_66 checks).
Proof.
  intros Hb. unfold reaches_66, pct.
  pose proof (passed_of_le_length checks) as Hle.
  destruct (Nat.ltb_spec 0 (length checks)) as [Hpos|Hz].
  - rewrite lt_int_66_count by (assumption || lia). cbn [andb].
    destruct (Nat.ltb_spec (50 * passed_of checks) (33 * length checks));
      destruct (Nat.leb_spec (33 * length checks) (50 * passed_of checks));
      (reflexivity || lia).
  - assert (E : length checks = 0%nat) by lia. rewrite E.
    assert (E' : passed_of checks = 0%nat) by lia. rewrite E'. reflexivity.
Qed.

(** X9: on a report whose levels hold at most [2^46] checks each, the float
    comparisons of [get_overall_level] decide as exact arithmetic would: a
    level counts as 100% exactly when it has a check and all its checks passed,
    and as 66% exactly when it has a check and [50 * passed >= 33 * total]. *)
Theorem get_overall_level_exact (r : ComplianceReport) :
  (Z.of_nat (length (bronze_checks r)) <= 2 ^ 46)%Z ->
  (Z.of_nat (length (silver_checks r)) <= 2 ^ 46)%Z ->
  (Z.of_nat (length (gold_checks r)) <= 2 ^ 46)%Z ->
  (Z.of_nat (length (platinum_checks r)) <= 2 ^ 46)%Z ->
  get_overall_level r = inr (exact_gate r).
Proof.
  intros Hb Hs Hg Hp. rewrite get_overall_level_unfold. unfold exact_gate.
  now rewrite (lt_int_100_complete _ Hb), (lt_int_100_complete _ Hs),
    (lt_int_66_reaches _ Hg), (lt_int_66_reaches _ Hp).
Qed.

Lemma get_overall_level_exact_witness :
  get_overall_level sample_report = inr (exact_gate sample_report).
Proof.
  apply (get_overall_level_exact sample_report); cbn; lia.
Defined.

End Accuracy.

(** ** Further properties of the report and its exports *)

Section MoreExportProperties.

Lemma list_ascii_of_string_app (s t : string) :
  list_ascii_of_string (s ++ t) = (list_ascii_of_string s ++ list_ascii_of_string t)%list.
Proof.
  induction s as [|c s IH]; [reflexivity|]. cbn. now rewrite IH.
Qed.

Lemma append_inv_tail (s1 s2 t : string) : s1 ++ t = s2 ++ t -> s1 = s2.
Proof.
  intros H. apply (f_equal list_ascii_of_string) in H.
  rewrite !list_ascii_of_string_app in H. apply app_inv_tail in H.
  rewrite <- (string_of_list_ascii_of_string s1), <- (string_of_list_ascii_of_string s2).
  now rewrite H.
Qed.

Lemma attr_eqb (s stem : string) : (s ++ "_checks" =? stem ++ "_checks") = (s =? stem).
Proof.
  destruct (String.eqb_spec s stem) as [->|N].
  - apply String.eqb_refl.
  - apply String.eqb_neq. intros H. apply N. now apply append_inv_tail in H.
Qed.

(** X10: [get_level_score] accepts a level name in any letter case and
    nothing else: it returns a score when the lower-cased name is one of
    bronze, silver, gold and platinum, and otherwise raises an
    [AttributeError]; for a name of ASCII characters the message is that of
    the attribute looked up, the lower-cased name followed by "_checks". *)
Theorem get_level_score_level_names (r : ComplianceReport) (level : string) :
  (In (lower level) ["bronze"; "silver"; "gold"; "platinum"] ->
   exists score, get_level_score r level = inr score) /\
  (~ In (lower level) ["bronze"; "silver"; "gold"; "platinum"] ->
   exists msg : string,
     get_level_score r level = inl (AttributeError msg) /\
     (is_ascii level = true ->
      msg = "'ComplianceReport' object has no attribute '"
              ++ lower level ++ "_checks'")).
Proof.
  rewrite get_level_score_getattr. unfold getattr.
  change "bronze_checks" with ("bronze" ++ "_checks").
  change "silver_checks" with ("silver" ++ "_checks").
  change "gold_checks" with ("gold" ++ "_checks").
  change "platinum_checks" with ("platinum" ++ "_checks").
  rewrite !attr_eqb.
  assert (Happ : forall a b c : string, a ++ (b ++ c) = (a ++ b) ++ c).
  { intros a b c. induction a as [|x a IH]; [reflexivity|]. cbn. now rewrite IH. }
  destruct (String.eqb_spec (lower level) "bronze") as [E1|N1];
    [split; [intros _; eexists; reflexivity | intros H; exfalso; apply H; cbn; auto]|].
  destruct (String.eqb_spec (lower level) "silver") as [E2|N2];
    [split; [intros _; eexists; reflexivity | intros H; exfalso; apply H; cbn; auto]|].
  destruct (String.eqb_spec (lower level) "gold") as [E3|N3];
    [split; [intros _; eexists; reflexivity | intros H; exfalso; apply H; cbn; auto]|].
  destruct (String.eqb_spec (lower level) "platinum") as [E4|N4];
    [split; [intros _; eexists; reflexivity | intros H; exfalso; apply H; cbn; auto]|].
  split.
  - intros [H|[H|[H|[H|[]]]]]; congruence.
  - intros _. cbn [raise Exception_either]. eexists. split; [reflexivity|].
    intros _. rewrite <- Happ. reflexivity.
Qed.

(** X11: [generate_badge] only ever uses the five rows of the colour table:
    the level needs no percent-encoding and the "lightgrey" default is never
    taken. *)
Theorem generate_badge_in_table (self : RSRChecker) :
  exists level color : string,
    In (level, color) colors /\
    generate_badge self =
    inr ("https://img.shields.io/badge/RSR-" ++ level ++ "-" ++ color).
Proof.
  unfold generate_badge. rewrite get_overall_level_gate. unfold gate_table.
  repeat match goal with
  | |- context [Qlt_le_dec ?x ?y] => destruct (Qlt_le_dec x y)
  end; cbn [bind ret Monad_either]; eexists _, _;
    (split; [|reflexivity]); cbn; tauto.
Qed.

Lemma exported_checks_passed (checks : list ComplianceCheck) :
  length (filter json_status_true (map check_to_json checks)) = passed_of checks.
Proof.
  induction checks as [|c cs IH]; [reflexivity|].
  rewrite passed_of_cons. cbn [map filter].
  replace (json_status_true (check_to_json c)) with (status c)
    by (unfold json_status_true; cbn; now destruct (status c)).
  destruct (status c); cbn [length]; rewrite IH; reflexivity.
Qed.

Lemma level_json_consistent (checks : list ComplianceCheck) :
  exists (items : list json) (passed total : nat) (percentage : Float64.float),
    json_get ["checks"] (level_json checks) = Some (JArray items) /\
    json_get ["score"] (level_json checks) =
      Some (JObject [("passed", JInt (Z.of_nat passed));
                     ("total", JInt (Z.of_nat total));
                     ("percentage", JFloat percentage)]) /\
    total = length items /\
    passed = length (filter json_status_true items) /\
    percentage = percentage_of passed total.
Proof.
  exists (map check_to_json checks), (passed_of checks), (length checks), (pct checks).
  split; [reflexivity|]. split; [reflexivity|].
  split; [now rewrite length_map|].
  split; [now rewrite exported_checks_passed | reflexivity].
Qed.

(** X12: the exported document is consistent in itself.  For every level
    [total] is the number of exported checks, [passed] the number of those
    whose status is true and [percentage] their float ratio; [overall_level]
    is the gate table applied to the four exported percentages. *)
Theorem export_json_consistent (self : RSRChecker) (now output_file : string) :
  exists (path : string) (data : json),
    export_json self now output_file = inr (path, data) /\
    Forall (exported_level_consistent data) ["bronze"; "silver"; "gold"; "platinum"] /\
    json_get ["overall_level"] data =
      Some (JString (gate_table (exported_percentage data "bronze")
                                (exported_percentage data "silver")
                                (exported_percentage data "gold")
                                (exported_percentage data "platinum"))).
Proof.
  rewrite export_json_value. eexists _, _. split; [reflexivity|]. split.
  - repeat (apply Forall_cons; [apply level_json_consistent|]). apply Forall_nil.
  - reflexivity.
Qed.

End MoreExportProperties.

(** ** Globbing and the checks built on it *)

Section GlobProperties.

Lemma fnmatch_star_unfold (pattern name : string) :
  fnmatch (String "*" pattern) name =
  fnmatch pattern name ||
  match name with
  | EmptyString => false
  | String _ name' => fnmatch (String "*" pattern) name'
  end.
Proof. destruct name; reflexivity. Qed.

Lemma fnmatch_literal (pattern name : string) :
  no_star pattern -> (fnmatch pattern name = true <-> name = pattern).
Proof.
  unfold no_star. revert name. induction pattern as [|c p IH]; intros name Hn.
  - destruct name; cbn; split; congruence.
  - cbn [list_ascii_of_string In] in Hn. cbn [fnmatch].
    destruct (Ascii.eqb_spec c "*") as [->|Hc]; [exfalso; apply Hn; now left|].
    destruct name as [|d name]; [split; discriminate|].
    rewrite andb_true_iff, IH by tauto.
    destruct (Ascii.eqb_spec c d) as [->|Hcd]; split.
    + intros [_ ->]. reflexivity.
    + intros H. injection H as ->. tauto.
    + intros [H _]. discriminate.
    + intros H. injection H as -> _. contradiction.
Qed.

Lemma fnmatch_suffix (suffix name : string) :
  no_star suffix ->
  (fnmatch (String "*" suffix) name = true <-> exists stem, name = stem ++ suffix).
Proof.
  intros Hn. induction name as [|d name IH]; rewrite fnmatch_star_unfold.
  - rewrite orb_false_r, (fnmatch_literal suffix "" Hn). split.
    + intros <-. now exists "".
    + intros [stem H]. destruct stem; [exact H | discriminate].
  - rewrite orb_true_iff, (fnmatch_literal suffix (String d name) Hn), IH. split.
    + intros [-> | [stem ->]]; [now exists "" | now exists (String d stem)].
    + intros [[|c stem] H]; [left; exact H | right].
      cbn in H. injection H as _ ->. now exists stem.
Qed.

Lemma select_one (part : string) (n x : node) :
  In x (select [part] n) <->
  exists (entries : list (string * node)) (entry_name : string),
    n = Dir entries /\ In (entry_name, x) entries /\ fnmatch part entry_name = true.
Proof.
  destruct n as [s l | entries]; cbn [select].
  - split; [intros [] | intros (? & ? & H & _); discriminate].
  - rewrite in_flat_map. split.
    + intros ([k child] & Hin & Hx). destruct (fnmatch part k) eqn:E; [|destruct Hx].
      destruct Hx as [<-|[]]. now exists entries, k.
    + intros (entries' & k & Hd & Hin & Hm). injection Hd as <-.
      exists (k, x). split; [exact Hin|]. rewrite Hm. now left.
Qed.

Lemma all_dirs_spec (root d : node) :
  In d (all_dirs root) <->
  (exists entries, d = Dir entries) /\ (d = root \/ below root d).
Proof.
  split.
  - revert d. induction root as [s l | entries IH] using node_nested_ind; intros d H.
    + destruct H.
    + cbn [all_dirs] in H. destruct H as [<- | H].
      * split; [now exists entries | now left].
      * apply in_flat_map in H. destruct H as ([k child] & Hin & Hd).
        rewrite Forall_forall in IH. specialize (IH _ Hin d Hd).
        destruct IH as [Hdir [-> | Hb]]; (split; [exact Hdir | right]).
        -- eapply below_child; eassumption.
        -- eapply below_deeper; eassumption.
  - intros [[entries ->] [<- | Hb]].
    + cbn [all_dirs]. now left.
    + remember (Dir entries) as d eqn:Ed.
      induction Hb as [k child es Hin | k child n es Hin _ IH]; cbn [all_dirs]; right;
        apply in_flat_map; exists (k, child); (split; [exact Hin|]).
      * subst child. cbn [all_dirs]. now left.
      * now apply IH.
Qed.

Lemma rglob_one (pattern part : string) (root x : node) :
  path_parts pattern = [part] ->
  (In x (rglob pattern root) <->
   exists entry_name : string,
     entry_in_tree root entry_name x /\ fnmatch part entry_name = true).
Proof.
  intros Hp. unfold rglob, entry_in_tree. rewrite Hp, in_flat_map. split.
  - intros (d & Hd & Hx). apply all_dirs_spec in Hd. destruct Hd as [_ Hd].
    apply select_one in Hx. destruct Hx as (entries & k & -> & Hin & Hm).
    exists k. split; [|exact Hm]. now exists (Dir entries), entries.
  - intros (k & (d & entries & Hd & -> & Hin) & Hm).
    exists (Dir entries). split.
    + apply all_dirs_spec. split; [now exists entries | exact Hd].
    + apply select_one. now exists entries, k.
Qed.

Lemma scan_py_files_spec (files : list node) :
  scan_py_files files = true <->
  exists (strict : result string) (content term : string),
    In (File strict (inr content)) files /\ In term crdt_terms /\
    contains term (lower content) = true.
Proof.
  induction files as [|f files IH].
  - split; [discriminate | intros (? & ? & ? & [] & _)].
  - cbn [scan_py_files].
    destruct f as [strict [e|content] | entries]; cbn [read_text_ignore raise
      Exception_either].
    + rewrite IH. split; intros (s0 & c0 & t0 & Hin & Hl & Hc); exists s0, c0, t0.
      * now (split; [right|]).
      * destruct Hin as [Hin|Hin]; [discriminate | easy].
    + destruct (existsb (fun term => contains term (lower content)) crdt_terms) eqn:E.
      * split; [intros _ | reflexivity].
        apply existsb_exists in E. destruct E as (term & Hl & Hc).
        exists strict, content, term. split; [now left | easy].
      * rewrite IH. split; intros (s0 & c0 & t0 & Hin & Hl & Hc).
        -- exists s0, c0, t0. now (split; [right|]).
        -- destruct Hin as [Hin|Hin]; [|now exists s0, c0, t0].
           injection Hin as -> ->.
           assert (X : existsb (fun term => contains term (lower c0)) crdt_terms = true)
             by (apply existsb_exists; now exists t0).
           congruence.
    + rewrite IH. split; intros (s0 & c0 & t0 & Hin & Hl & Hc); exists s0, c0, t0.
      * now (split; [right|]).
      * destruct Hin as [Hin|Hin]; [discriminate | easy].
Qed.

Variable fs : node.

Lemma no_star_py : no_star ".py".
Proof. unfold no_star. cbn. intuition discriminate. Qed.

Lemma has_crdt_code_spec (self : RSRChecker) :
  has_crdt_code fs self = true <->
  exists (root : node) (stem : string) (strict : result string) (content term : string),
    walk [] fs (repo_path self) = Some root /\
    entry_in_tree root (stem ++ ".py") (File strict (inr content)) /\
    In term ["crdt"; "conflict-free"; "operational transform"; "automerge"] /\
    occurs_in term (lower content).
Proof.
  unfold has_crdt_code, repo_rglob.
  destruct (walk [] fs (repo_path self)) as [root|].
  - rewrite scan_py_files_spec. split.
    + intros (strict & content & term & Hin & Ht & Hc).
      apply (rglob_one "*.py" "*.py" root _ eq_refl) in Hin.
      destruct Hin as (k & Hk & Hm).
      apply (fnmatch_suffix ".py" k no_star_py) in Hm. destruct Hm as [stem ->].
      exists root, stem, strict, content, term. split; [reflexivity|].
      split; [exact Hk|]. split; [exact Ht|]. now apply contains_spec.
    + intros (r & stem & strict & content & term & Er & Hk & Ht & Ho).
      injection Er as <-. exists strict, content, term.
      split; [|split; [exact Ht | now apply contains_spec]].
      apply (rglob_one "*.py" "*.py" root _ eq_refl). exists (stem ++ ".py").
      split; [exact Hk|]. apply (fnmatch_suffix ".py" _ no_star_py). now exists stem.
  - split; [discriminate | intros (r & _ & _ & _ & _ & Er & _); discriminate].
Qed.

(** X13: the Platinum check "CRDT/Offline-first" passes exactly when [crdt],
    [offline] or [sync] is an entry of the repository, or when some entry
    whose name ends in [.py], anywhere in the repository, is a readable
    regular file whose lower-cased text holds one of the four terms. *)
Theorem crdt_check (self : RSRChecker) :
  status_of "CRDT/Offline-first" (platinum_checks (report (check_platinum_level fs self)))
  = Some true <->
  (exists (d : string) (n : node),
      In d ["crdt"; "offline"; "sync"] /\
      walk [] fs (repo_path self ++ [d]) = Some n) \/
  (exists (root : node) (stem : string) (strict : result string) (content term : string),
      walk [] fs (repo_path self) = Some root /\
      entry_in_tree root (stem ++ ".py") (File strict (inr content)) /\
      In term ["crdt"; "conflict-free"; "operational transform"; "automerge"] /\
      occurs_in term (lower content)).
Proof.
  rewrite <- has_crdt_code_spec.
  unfold check_platinum_level.
  cbn [set_platinum_checks report platinum_checks status_of find name new_check].
  change ("CRDT/Offline-first" =? "CRDT/Offline-first") with true.
  cbn [option_map status new_check].
  assert (Hdir : has_crdt_dir fs self = true <->
                 exists (d : string) (n : node),
                   In d ["crdt"; "offline"; "sync"] /\
                   walk [] fs (repo_path self ++ [d]) = Some n).
  { unfold has_crdt_dir. rewrite existsb_exists. split.
    - intros (f & Hin & Hex). unfold check_file_exists, lookup in Hex.
      destruct (walk [] fs (joinpath (repo_path self) f)) as [n|] eqn:E; [|discriminate].
      cbn in Hin.
      destruct Hin as [<-|[<-|[<-|[]]]];
        [exists "crdt" | exists "offline" | exists "sync"];
        exists n; (split; [cbn; tauto | exact E]).
    - intros (d & n & Hin & E). cbn in Hin.
      destruct Hin as [<-|[<-|[<-|[]]]];
        [exists "crdt/" | exists "offline/" | exists "sync/"];
        (split; [cbn; tauto |]); unfold check_file_exists, lookup;
        match goal with
        | |- context [joinpath ?base ?p] =>
            let parts := eval cbv in (path_parts p) in
            change (joinpath base p) with (base ++ parts)%list
        end;
        now rewrite E. }
  rewrite <- Hdir. split.
  - intros H. injection H as H. now apply orb_true_iff.
  - intros H. apply orb_true_iff in H. now rewrite H.
Qed.

Lemma indicator_found_spec (self : RSRChecker) (indicator : string) :
  indicator_found fs self indicator = true <-> repo_rglob fs self indicator <> [].
Proof.
  unfold indicator_found. destruct (repo_rglob fs self indicator).
  - split; [discriminate | congruence].
  - split; [discriminate | reflexivity].
Qed.

Lemma find_languages_spec (self : RSRChecker) (table : list (string * list string))
      (lang : string) :
  In lang (find_languages fs self table) <->
  exists indicators : list string,
    In (lang, indicators) table /\ existsb (indicator_found fs self) indicators = true.
Proof.
  induction table as [|[l inds] table IH]; cbn [find_languages].
  - split; [intros [] | intros (? & [] & _)].
  - destruct (existsb (indicator_found fs self) inds) eqn:E.
    + cbn [In]. rewrite IH. split.
      * intros [<- | (i & Hin & Hi)]; [exists inds | exists i]; cbn; auto.
      * intros (i & [Heq | Hin] & Hi); [left; congruence | right; now exists i].
    + rewrite IH. split.
      * intros (i & Hin & Hi). exists i. cbn. auto.
      * intros (i & [Heq | Hin] & Hi); [|now exists i].
        injection Heq as -> ->. congruence.
Qed.

Lemma find_languages_NoDup (self : RSRChecker) (table : list (string * list string)) :
  NoDup (map fst table) -> NoDup (find_languages fs self table).
Proof.
  induction table as [|[l inds] table IH]; cbn [find_languages map fst]; intros H.
  - constructor.
  - inversion H as [|? ? Hnot Hrest]; subst.
    destruct (existsb (indicator_found fs self) inds); [|now apply IH].
    constructor; [|now apply IH].
    intros Hin. apply Hnot. apply find_languages_spec in Hin.
    destruct Hin as (i & Hin & _). apply in_map_iff. now exists (l, i).
Qed.

Lemma two_distinct_members {A : Type} (l : list A) :
  NoDup l ->
  ((2 <=? length l)%nat = true <-> exists a b : A, a <> b /\ In a l /\ In b l).
Proof.
  intros Hnd. split.
  - destruct l as [|a [|b l]]; try discriminate. intros _.
    exists a, b. split; [|cbn; auto].
    inversion Hnd as [|? ? Hnot _]; subst. intros ->. apply Hnot. now left.
  - intros (a & b & Hab & Ha & Hb).
    destruct l as [|x [|y l]]; [destruct Ha | | reflexivity].
    destruct Ha as [<-|[]], Hb as [<-|[]]. contradiction.
Qed.

Lemma lang_indicators_NoDup : NoDup (map fst lang_indicators).
Proof.
  cbn. repeat (constructor; [cbn; intuition discriminate|]). constructor.
Qed.

(** X14: the Gold check "Multi-language support" passes exactly when two
    different languages of the table each have an indicator that matches
    somewhere in the repository. *)
Theorem multi_language_check (self : RSRChecker) :
  status (check_gold_level_languages fs self) = true <->
  exists l1 l2 : string,
    l1 <> l2 /\ language_detected fs self l1 /\ language_detected fs self l2.
Proof.
  assert (Hd : forall lang, In lang (find_languages fs self lang_indicators) <->
                            language_detected fs self lang).
  { intros lang. rewrite find_languages_spec. unfold language_detected. split.
    - intros (inds & Hin & Hex). apply existsb_exists in Hex.
      destruct Hex as (i & Hi & Hf). exists inds, i.
      split; [exact Hin|]. split; [exact Hi|]. now apply indicator_found_spec.
    - intros (inds & i & Hin & Hi & Hf). exists inds. split; [exact Hin|].
      apply existsb_exists. exists i. split; [exact Hi|].
      now apply indicator_found_spec. }
  unfold check_gold_level_languages. cbn [status new_check].
  rewrite (two_distinct_members _ (find_languages_NoDup self _ lang_indicators_NoDup)).
  split; intros (a & b & Hab & Ha & Hb); exists a, b;
    (split; [exact Hab|]); split; now apply Hd.
Qed.

Lemma repo_rglob_one (self : RSRChecker) (pattern part : string) :
  path_parts pattern = [part] ->
  (repo_rglob fs self pattern <> [] <->
   exists (root : node) (entry_name : string) (n : node),
     walk [] fs (repo_path self) = Some root /\
     entry_in_tree root entry_name n /\ fnmatch part entry_name = true).
Proof.
  intros Hp. unfold repo_rglob.
  destruct (walk [] fs (repo_path self)) as [root|].
  - split.
    + intros H. destruct (rglob pattern root) as [|x l] eqn:E; [congruence|].
      assert (Hin : In x (rglob pattern root)) by (rewrite E; now left).
      apply (rglob_one pattern part root x Hp) in Hin.
      destruct Hin as (k & Hk & Hm). now exists root, k, x.
    + intros (r & k & n & Er & Hk & Hm). injection Er as <-.
      assert (Hin : In n (rglob pattern root))
        by (apply (rglob_one pattern part root n Hp); now exists k).
      intros E. rewrite E in Hin. destruct Hin.
  - split; [congruence | intros (r & _ & _ & Er & _); discriminate].
Qed.

(** X15: Python is detected exactly when some entry of the repository, a
    file or a directory at any depth, has a name that ends in [.py] or is
    called [pyproject.toml]; the indicator [setup.py] adds nothing. *)
Theorem python_detected (self : RSRChecker) :
  language_detected fs self "Python" <->
  exists (root : node) (entry_name : string) (n : node),
    walk [] fs (repo_path self) = Some root /\
    entry_in_tree root entry_name n /\
    ((exists stem, entry_name = stem ++ ".py") \/ entry_name = "pyproject.toml").
Proof.
  assert (Hsetup : no_star "setup.py") by (unfold no_star; cbn; intuition discriminate).
  assert (Hpyproject : no_star "pyproject.toml")
    by (unfold no_star; cbn; intuition discriminate).
  unfold language_detected. split.
  - intros (inds & i & Hin & Hi & Hf). cbn in Hin.
    destruct Hin as [E|[E|[E|[E|[E|[E|[E|[E|[]]]]]]]]]; try discriminate.
    injection E as <-. cbn in Hi. destruct Hi as [<-|[<-|[<-|[]]]].
    + apply (repo_rglob_one self "*.py" "*.py" eq_refl) in Hf.
      destruct Hf as (root & k & n & Hr & Hk & Hm). exists root, k, n.
      split; [exact Hr|]. split; [exact Hk|]. left.
      now apply (fnmatch_suffix ".py" k no_star_py).
    + apply (repo_rglob_one self "setup.py" "setup.py" eq_refl) in Hf.
      destruct Hf as (root & k & n & Hr & Hk & Hm). exists root, k, n.
      split; [exact Hr|]. split; [exact Hk|]. left.
      apply (fnmatch_literal "setup.py" k Hsetup) in Hm. now exists "setup".
    + apply (repo_rglob_one self "pyproject.toml" "pyproject.toml" eq_refl) in Hf.
      destruct Hf as (root & k & n & Hr & Hk & Hm). exists root, k, n.
      split; [exact Hr|]. split; [exact Hk|]. right.
      now apply (fnmatch_literal "pyproject.toml" k Hpyproject).
  - intros (root & k & n & Hr & Hk & [[stem ->] | ->]);
      exists ["*.py"; "setup.py"; "pyproject.toml"].
    + exists "*.py". split; [cbn; auto|]. split; [cbn; auto|].
      apply (repo_rglob_one self "*.py" "*.py" eq_refl).
      exists root, (stem ++ ".py"), n. split; [exact Hr|]. split; [exact Hk|].
      apply (fnmatch_suffix ".py" _ no_star_py). now exists stem.
    + exists "pyproject.toml". split; [cbn; auto|]. split; [cbn; auto|].
      apply (repo_rglob_one self "pyproject.toml" "pyproject.toml" eq_refl).
      exists root, "pyproject.toml", n. split; [exact Hr|]. split; [exact Hk|].
      now apply (fnmatch_literal "pyproject.toml" _ Hpyproject).
Qed.

Lemma scan_ci_files_spec (self : RSRChecker) (ci_files : list string) :
  scan_ci_files fs self ci_files = true ->
  exists (ci_file : string) (n : node) (content tool : string),
    In ci_file ci_files /\ lookup fs self ci_file = Some n /\
    ci_content n = inr content /\
    In tool ["bandit"; "semgrep"; "snyk"; "trivy"] /\ occurs_in tool content.
Proof.
  induction ci_files as [|f rest IH]; [discriminate|].
  cbn [scan_ci_files].
  destruct (lookup fs self f) as [n|] eqn:El.
  - destruct (ci_content n) as [e|content] eqn:Ec.
    + intros H. destruct (IH H) as (c & n' & ct & t & Hin & Hrest).
      exists c, n', ct, t. split; [now right | exact Hrest].
    + destruct (existsb (fun tool => contains tool content) security_tools) eqn:Ex.
      * intros _. apply existsb_exists in Ex. destruct Ex as (tool & Ht & Hc).
        exists f, n, content, tool. split; [now left|]. split; [exact El|].
        split; [exact Ec|]. split; [exact Ht | now apply contains_spec].
      * intros H. destruct (IH H) as (c & n' & ct & t & Hin & Hrest).
        exists c, n', ct, t. split; [now right | exact Hrest].
  - intros H. destruct (IH H) as (c & n' & ct & t & Hin & Hrest).
    exists c, n', ct, t. split; [now right | exact Hrest].
Qed.

(** X16: the Gold check "Advanced security" needs a lock file or an SBOM.
    It never passes on security scanning alone; [requirements.txt] or
    [Cargo.lock] together with [sbom.json] or [bom.xml] pass it without any CI
    configuration; and when it counts security scanning, a CI configuration
    that can be read holds the name of one of the four tools. *)
Theorem advanced_security_check (self : RSRChecker) :
  (status (check_gold_level_security fs self) = true ->
   existsb (check_file_exists fs self)
           ["requirements.txt"; "Cargo.lock"; "sbom.json"; "bom.xml"] = true) /\
  (existsb (check_file_exists fs self) ["requirements.txt"; "Cargo.lock"] = true ->
   existsb (check_file_exists fs self) ["sbom.json"; "bom.xml"] = true ->
   status (check_gold_level_security fs self) = true) /\
  (In "Security scanning" (security_features fs self) ->
   exists (ci_file : string) (n : node) (content tool : string),
     In ci_file [".gitlab-ci.yml"; ".github/workflows"] /\
     lookup fs self ci_file = Some n /\ ci_content n = inr content /\
     In tool ["bandit"; "semgrep"; "snyk"; "trivy"] /\ occurs_in tool content).
Proof.
  unfold check_gold_level_security, security_features, has_dependency_management,
    has_sbom. cbn [status new_check existsb].
  split; [|split].
  - destruct (has_security_scanning fs self),
      (check_file_exists fs self "requirements.txt"),
      (check_file_exists fs self "Cargo.lock"),
      (check_file_exists fs self "sbom.json"),
      (check_file_exists fs self "bom.xml"); cbn; congruence.
  - destruct (has_security_scanning fs self),
      (check_file_exists fs self "requirements.txt"),
      (check_file_exists fs self "Cargo.lock"),
      (check_file_exists fs self "sbom.json"),
      (check_file_exists fs self "bom.xml"); cbn; congruence.
  - intros H. apply (scan_ci_files_spec self).
    fold (has_security_scanning fs self).
    destruct (has_security_scanning fs self); [reflexivity|].
    exfalso. revert H.
    destruct (check_file_exists fs self "requirements.txt" ||
              check_file_exists fs self "Cargo.lock"),
      (check_file_exists fs self "sbom.json" || check_file_exists fs self "bom.xml");
      cbn; intuition discriminate.
Qed.

End GlobProperties.
